(** * goober: subtitle pipeline (tl_argos.py, tl_opus.py, main.py, cleanup.py)

    A shallow embedding of the two translation scripts of the repository:
    the construction of the subtitle list in [write_srt], the two
    translation loops [translate_srt] and [translate_srt_opus], the
    Argos provisioning protocol [load_translator] / [ensure_argos_pair],
    and the path and language-code computations of [main]; and of the
    interactive launcher (main.py) and the cache cleaner (cleanup.py).

    Python strings are modelled as [string] over 8-bit code points.
    File system, dictionaries and the installed-language table are
    finite maps ([gmap]).  Calls into third-party packages appear as
    fields of an interface class or as section variables; the SRT codec
    and the batching of the multilingual engine, which live in such
    packages, are in addition modelled from the specification
    ([SrtCodec], [BatchBackend]). *)

From Stdlib Require Import ZArith Lia Ascii String List.
From Stdlib Require Import DecimalString DecimalNat DecimalN DecimalZ.
From stdpp Require Import gmap strings list.

Local Open Scope string_scope.
Local Arguments String.append : simpl nomatch.

(** ** Python string primitives *)

Module Py.

(** [str.isspace] on one code point below 256: TAB..CR, FS..US, space,
    NEL (0x85) and NBSP (0xA0). *)
Definition isspace (c : ascii) : bool :=
  let n := N_of_ascii c in
  ((9 <=? n) && (n <=? 13) || (28 <=? n) && (n <=? 32)
   || (n =? 133) || (n =? 160))%N.

(** [s.lstrip()] *)
Fixpoint lstrip (s : string) : string :=
  match s with
  | String c s' => if isspace c then lstrip s' else s
  | EmptyString => EmptyString
  end.

(** [s.rstrip()]: a white-space character is dropped when everything
    after it has been dropped. *)
Fixpoint rstrip (s : string) : string :=
  match s with
  | String c s' =>
      match rstrip s' with
      | EmptyString => if isspace c then EmptyString else String c EmptyString
      | r => String c r
      end
  | EmptyString => EmptyString
  end.

(** [s.strip()] *)
Definition strip (s : string) : string := rstrip (lstrip s).

(** [c.lower()] on one code point below 256: A..Z and the Latin-1
    capital letters (0xC0..0xDE without the multiplication sign). *)
Definition lower_char (c : ascii) : ascii :=
  let n := N_of_ascii c in
  if ((65 <=? n) && (n <=? 90)
      || (192 <=? n) && (n <=? 222) && negb (n =? 215))%N
  then ascii_of_N (n + 32) else c.

(** [s.lower()] *)
Fixpoint lower (s : string) : string :=
  match s with
  | String c s' => String (lower_char c) (lower s')
  | EmptyString => EmptyString
  end.

(** [s.split(sep)] for a one-character separator: never empty. *)
Fixpoint split (sep : ascii) (s : string) : list string :=
  match s with
  | EmptyString => [EmptyString]
  | String c s' =>
      if Ascii.eqb c sep then EmptyString :: split sep s'
      else match split sep s' with
           | w :: ws => String c w :: ws
           | [] => [String c EmptyString]
           end
  end.

(** [s.split(sep)[0]] *)
Definition split_head (sep : ascii) (s : string) : string :=
  match split sep s with
  | w :: _ => w
  | [] => EmptyString
  end.

(** [sep in s] for a one-character [sep]. *)
Fixpoint contains (sep : ascii) (s : string) : bool :=
  match s with
  | EmptyString => false
  | String c s' => Ascii.eqb c sep || contains sep s'
  end.

(** [s.rfind(c)]: index of the last occurrence, [None] for Python's -1. *)
Fixpoint rfind (c : ascii) (s : string) : option nat :=
  match s with
  | EmptyString => None
  | String a s' =>
      match rfind c s' with
      | Some i => Some (S i)
      | None => if Ascii.eqb a c then Some 0 else None
      end
  end.

(** first and last character *)
Definition head (s : string) : option ascii :=
  match s with String c _ => Some c | EmptyString => None end.

Fixpoint last (s : string) : option ascii :=
  match s with
  | EmptyString => None
  | String c EmptyString => Some c
  | String _ s' => last s'
  end.

(** [s[:n]] and [s[n:]] for [0 <= n] *)
Fixpoint slice_to (n : nat) (s : string) : string :=
  match n, s with
  | S n', String c s' => String c (slice_to n' s')
  | _, _ => EmptyString
  end.

Fixpoint slice_from (n : nat) (s : string) : string :=
  match n, s with
  | S n', String _ s' => slice_from n' s'
  | _, _ => s
  end.

End Py.

(** ** Subtitles (the fields of [srt.Subtitle] that the scripts set) *)

(** [datetime.timedelta]: a signed count of microseconds. *)
Definition timedelta := Z.

Record Subtitle := mkSubtitle {
  index : nat;
  start : timedelta;
  end_ : timedelta;
  content : string
}.

Definition set_content (sub : Subtitle) (c : string) : Subtitle :=
  {| index := index sub; start := start sub; end_ := end_ sub; content := c |}.

(** Two subtitles that differ at most in their content. *)
Definition same_frame (a b : Subtitle) : Prop :=
  index a = index b /\ start a = start b /\ end_ a = end_ b.

(** ** [write_srt]: from transcription segments to subtitles *)

Section WriteSrt.

(** Segment times are the floats produced by the transcriber;
    [timedelta_seconds x] is [timedelta(seconds=x)]. *)
Variable seconds : Type.
Variable timedelta_seconds : seconds -> timedelta.

(** A segment is the tuple [(seg.start, seg.end, seg.text)]. *)
Definition Segment : Type := seconds * seconds * string.

Definition seg_start (seg : Segment) : seconds := fst (fst seg).
Definition seg_end (seg : Segment) : seconds := snd (fst seg).
Definition seg_text (seg : Segment) : string := snd seg.

(** The subtitle built at tl_argos.py:30-35 for counter [i] and segment [seg]. *)
Definition subtitle_of (i : nat) (seg : Segment) : Subtitle :=
  {| index := i;
     start := timedelta_seconds (seg_start seg);
     end_ := timedelta_seconds (seg_end seg);
     content := Py.strip (seg_text seg) |}.

(** The loop [for i, seg in enumerate(segments, start=1): subs.append(...)],
    with the counter [i] and the list [subs] built so far as state. *)
Fixpoint write_srt_loop (i : nat) (segments : list Segment)
    (subs : list Subtitle) : list Subtitle :=
  match segments with
  | [] => subs
  | seg :: rest =>
      write_srt_loop (S i) rest (subs ++ [subtitle_of i seg])
  end.

(** The list handed to [srt.compose] by [write_srt]. *)
Definition write_srt_subs (segments : list Segment) : list Subtitle :=
  write_srt_loop 1 segments [].

End WriteSrt.

Arguments seg_start {seconds} seg.
Arguments seg_end {seconds} seg.
Arguments seg_text {seconds} seg.
Arguments subtitle_of {seconds} timedelta_seconds i seg.
Arguments write_srt_loop {seconds} timedelta_seconds i segments subs.
Arguments write_srt_subs {seconds} timedelta_seconds segments.

(** ** Exceptions raised by the scripts and by the packages they call *)

Inductive Exception :=
| LibraryError (msg : string)
    (** raised inside a third-party package *)
| NoPackageFound (key : string)
    (** tl_argos.py:72, "No Argos package found for {key}..." *)
| AutoInstallFailed (src tgt : string) (cause : Exception)
    (** tl_argos.py:80, "Failed to auto-install Argos {src}->{tgt}: {e}" *)
| StillUnavailable (src tgt : string)
    (** tl_argos.py:84, "... still unavailable ... after install." *)
| IndexError
    (** [translated_sentences[i]] out of range *)
| AttributeError
    (** [None.split] when no language was detected *)
| ValueError (msg : string)
    (** [with_suffix] on a path with an empty name *)
| FileNotFoundError (path : string)
| FormatError (msg : string)
    (** malformed SRT text *)
| SystemExit (msg : string).

(** ** The translation loops *)

(** tl_argos.py:42-43, [for sub in subs: sub.content = translator.translate(sub.content)].
    The subtitles come fresh from [srt.parse], so no two list cells share
    an object: the in-place assignment is an update of the visited cell. *)
Fixpoint translate_loop (translate : string -> string) (subs : list Subtitle)
    : list Subtitle :=
  match subs with
  | [] => []
  | sub :: rest =>
      set_content sub (translate (content sub)) :: translate_loop translate rest
  end.

(** tl_opus.py:43, [sentences = [sub.content for sub in subs]] *)
Definition sentences_of (subs : list Subtitle) : list string :=
  map content subs.

(** tl_opus.py:53-54, [for i, sub in enumerate(subs): sub.content = translated_sentences[i]];
    the subscript raises [IndexError] past the end of the list. *)
Fixpoint assign_loop (i : nat) (subs : list Subtitle)
    (translated_sentences : list string) : Exception + list Subtitle :=
  match subs with
  | [] => inr []
  | sub :: rest =>
      match translated_sentences !! i with
      | None => inl IndexError
      | Some t =>
          match assign_loop (S i) rest translated_sentences with
          | inl e => inl e
          | inr rest' => inr (set_content sub t :: rest')
          end
      end
  end.

(** The batch engine [EasyNMT.translate(sentences, source_lang, target_lang,
    batch_size, ...)]: a list of sentences in, a list out, or an exception. *)
Definition BatchEngine : Type :=
  list string -> string -> string -> Z -> Exception + list string.

(** tl_opus.py:43-54 on the parsed subtitles. *)
Definition translate_subs_opus (translator : BatchEngine)
    (src_lang tgt_lang : string) (batch_size : Z) (subs : list Subtitle)
    : Exception + list Subtitle :=
  match translator (sentences_of subs) src_lang tgt_lang batch_size with
  | inl e => inl e
  | inr translated_sentences => assign_loop 0 subs translated_sentences
  end.

(** ** Argos provisioning *)

(** The part of [argostranslate] the script touches.  [get_translation]
    answers [None] where the package answers a false value.  Two things
    are taken for granted about the package: [translate] returns, and an
    [install_from_path] that raises has left the registry as it was; no
    property below speaks of the registry after an install that raised. *)
Class Argos := {
  Language : Type;
  Translation : Type;
  Package : Type;
  ModelPath : Type;
  lang_code : Language -> string;
  get_translation : Language -> Language -> option Translation;
  translate : Translation -> string -> string;
  from_code : Package -> string;
  to_code : Package -> string;
  download : Package -> Exception + ModelPath;
  install_from_path : ModelPath -> list Language -> Exception + list Language
}.

Section Provisioning.
Context `{Argos}.

(** Calls that leave the process: the catalog query, a download, an install. *)
Inductive Op :=
| OpCatalog
| OpDownload (pkg : Package)
| OpInstall (model_path : ModelPath).

(** [installed] is what [get_installed_languages()] returns, [available]
    what [get_available_packages()] returns or raises, [ops] the calls
    made so far, oldest first. *)
Record World := mkWorld {
  installed : list Language;
  available : Exception + list Package;
  ops : list Op
}.

Definition log (op : Op) (w : World) : World :=
  {| installed := installed w; available := available w; ops := ops w ++ [op] |}.

Definition set_installed (reg : list Language) (w : World) : World :=
  {| installed := reg; available := available w; ops := ops w |}.

(** [{lang.code: lang for lang in installed}]: a later language replaces
    an earlier one with the same code. *)
Definition langs_of (installed : list Language) : gmap string Language :=
  foldl (fun m lang => <[lang_code lang := lang]> m) ∅ installed.

(** tl_argos.py:47-54 *)
Definition load_translator (src_lang tgt_lang : string) (w : World)
    : option Translation :=
  let langs := langs_of (installed w) in
  match langs !! src_lang, langs !! tgt_lang with
  | Some ls, Some lt => get_translation ls lt
  | _, _ => None
  end.

(** [f"{a}-{b}"] *)
Definition pair_key (a b : string) : string := a ++ "-" ++ b.

(** [{f"{pkg.from_code}-{pkg.to_code}": pkg for pkg in ...}] *)
Definition available_of (pkgs : list Package) : gmap string Package :=
  foldl (fun m pkg => <[pair_key (from_code pkg) (to_code pkg) := pkg]> m) ∅ pkgs.

(** The body of the [try] block, tl_argos.py:65-78. *)
Definition try_install (src_lang tgt_lang : string) (w : World)
    : (Exception + unit) * World :=
  let w1 := log OpCatalog w in
  match available w1 with
  | inl e => (inl e, w1)
  | inr pkgs =>
      let key := pair_key src_lang tgt_lang in
      match available_of pkgs !! key with
      | None => (inl (NoPackageFound key), w1)
      | Some pkg =>
          let w2 := log (OpDownload pkg) w1 in
          match download pkg with
          | inl e => (inl e, w2)
          | inr model_path =>
              let w3 := log (OpInstall model_path) w2 in
              match install_from_path model_path (installed w3) with
              | inl e => (inl e, w3)
              | inr reg => (inr tt, set_installed reg w3)
              end
          end
      end
  end.

(** tl_argos.py:56-85 *)
Definition ensure_argos_pair (src_lang tgt_lang : string) (w : World)
    : (Exception + Translation) * World :=
  match load_translator src_lang tgt_lang w with
  | Some tr => (inr tr, w)
  | None =>
      match try_install src_lang tgt_lang w with
      | (inl e, w') => (inl (AutoInstallFailed src_lang tgt_lang e), w')
      | (inr _, w') =>
          match load_translator src_lang tgt_lang w' with
          | Some tr => (inr tr, w')
          | None => (inl (StillUnavailable src_lang tgt_lang), w')
          end
      end
  end.

End Provisioning.

(** ** Paths and language codes computed by [main] *)

(** A [pathlib] path: the text up to and including the last separator,
    and the final component. *)
Record Path := mkPath {
  parent : string;
  name : string
}.

(** [str(path)] *)
Definition str (p : Path) : string := parent p ++ name p.

(** [PurePath.suffix] (pathlib up to Python 3.13):
    [i = name.rfind('.'); name[i:] if 0 < i < len(name) - 1 else ''] *)
Definition suffix (p : Path) : string :=
  match Py.rfind "." (name p) with
  | Some i =>
      if (0 <? i)%nat && (Z.of_nat i <? Z.of_nat (String.length (name p)) - 1)%Z
      then Py.slice_from i (name p) else EmptyString
  | None => EmptyString
  end.

(** [path.with_suffix("")] *)
Definition with_suffix_empty (p : Path) : Exception + Path :=
  if String.eqb (name p) EmptyString
  then inl (ValueError "has an empty name")
  else
    let old_suffix := suffix p in
    let name' :=
      if String.eqb old_suffix EmptyString then name p ++ EmptyString
      else Py.slice_to (String.length (name p) - String.length old_suffix) (name p)
             ++ EmptyString in
    inr {| parent := parent p; name := name' |}.

(** tl_argos.py:128-130 and tl_opus.py:101-103: the texts handed to
    [Path(...)] for the two output files. *)
Definition output_paths (video : Path) (to : string)
    : Exception + (string * string) :=
  match with_suffix_empty video with
  | inl e => inl e
  | inr base =>
      inr (str base ++ ".orig.srt", str base ++ "." ++ to ++ ".srt")
  end.

(** tl_argos.py:152 and tl_opus.py:125:
    [(detected_lang if language.lower() == "auto" else language).split("-")[0]] *)
Definition source_code (language : string) (detected_lang : option string)
    : Exception + string :=
  if String.eqb (Py.lower language) "auto" then
    match detected_lang with
    | Some d => inr (Py.split_head "-" d)
    | None => inl AttributeError
    end
  else inr (Py.split_head "-" language).

(** The codes handed to [ensure_argos_pair(src_code, args.to)]
    (tl_argos.py:155) and to [translate_srt_opus(..., src_code, args.to, ...)]
    (tl_opus.py:138). *)
Definition language_pair (language to : string) (detected_lang : option string)
    : Exception + (string * string) :=
  match source_code language detected_lang with
  | inl e => inl e
  | inr src_code => inr (src_code, to)
  end.

(** ** The scripts as state transformers *)

(** A computation that may raise, over a state [S]. *)
Definition M (S A : Type) : Type := S -> (Exception + A) * S.

Definition ret {S A} (a : A) : M S A := fun st => (inr a, st).

Definition raise {S A} (e : Exception) : M S A := fun st => (inl e, st).

Definition bind {S A B} (m : M S A) (k : A -> M S B) : M S B :=
  fun st =>
    match m st with
    | (inl e, st') => (inl e, st')
    | (inr a, st') => k a st'
    end.

Definition lift {S A} (r : Exception + A) : M S A :=
  match r with
  | inl e => raise e
  | inr a => ret a
  end.

Notation "'let*' x ':=' m 'in' k" := (bind m (fun x => k))
  (at level 10, x name, m at level 100, k at level 200).

Section Scripts.
Context `{Argos}.

Variable seconds : Type.
Variable timedelta_seconds : seconds -> timedelta.

(** [srt.compose] and [srt.parse] of the [srt] package. *)
Variable srt_compose : list Subtitle -> string.
Variable srt_parse : string -> Exception + list Subtitle.

(** The registry and catalog seen by Argos, and the text files by path. *)
Record State := mkState {
  world : World;
  files : gmap string string
}.

(** The state after [text] has been written to [path]. *)
Definition wrote (st : State) (path text : string) : State :=
  {| world := world st; files := <[path := text]> (files st) |}.

(** [open(path, "w").write(text)] *)
Definition write_file (path text : string) : M State unit :=
  fun st => (inr tt, wrote st path text).

(** [open(path, "r").read()] *)
Definition read_file (path : string) : M State string :=
  fun st =>
    match files st !! path with
    | Some text => (inr text, st)
    | None => (inl (FileNotFoundError path), st)
    end.

(** tl_argos.py:27-37, tl_opus.py:27-37 *)
Definition write_srt (segments : list (Segment seconds)) (out_path : string)
    : M State unit :=
  write_file out_path (srt_compose (write_srt_subs timedelta_seconds segments)).

(** tl_argos.py:39-45 *)
Definition translate_srt (in_srt out_srt : string) (translator : Translation)
    : M State unit :=
  let* text := read_file in_srt in
  let* subs := lift (srt_parse text) in
  write_file out_srt (srt_compose (translate_loop (translate translator) subs)).

(** tl_opus.py:39-57 *)
Definition translate_srt_opus (in_srt out_srt : string)
    (translator : BatchEngine) (src_lang tgt_lang : string) (batch_size : Z)
    : M State unit :=
  let* text := read_file in_srt in
  let* subs := lift (srt_parse text) in
  let* subs' := lift (translate_subs_opus translator src_lang tgt_lang batch_size subs) in
  write_file out_srt (srt_compose subs').

(** [ensure_argos_pair] on the [world] component. *)
Definition ensure (src_lang tgt_lang : string) : M State Translation :=
  fun st =>
    let '(r, w) := ensure_argos_pair src_lang tgt_lang (world st) in
    (r, {| world := w; files := files st |}).

(** Command-line arguments read by both scripts. *)
Record Args := mkArgs {
  video : Path;
  language : string;
  to : string;
  batch_size : Z
}.

(** What audio extraction and transcription hand back: the segments and
    [getattr(info, "language", None)], or the exception they raised. *)
Definition Transcription : Type :=
  Exception + (list (Segment seconds) * option string).

(** tl_argos.py:110-162.  [video_exists] is [video.exists()]. *)
Definition main_argos (args : Args) (video_exists : bool)
    (transcription : Transcription) : M State unit :=
  if negb video_exists then raise (SystemExit "Input not found")
  else
    let* outs := lift (output_paths (video args) (to args)) in
    let* tr := lift transcription in
    let* _ := write_srt (fst tr) (fst outs) in
    let* pair := lift (language_pair (language args) (to args) (snd tr)) in
    let* translator := ensure (fst pair) (snd pair) in
    translate_srt (fst outs) (snd outs) translator.

(** tl_opus.py:82-142.  [opus] is what tl_opus.py:127-135 hand back: the
    engine built by [EasyNMT("Opus-MT")] once the NLTK tokenizer data has
    been looked up (and downloaded when missing), or the exception raised
    on the way. *)
Definition main_opus (opus : Exception + BatchEngine) (args : Args)
    (video_exists : bool) (transcription : Transcription) : M State unit :=
  if negb video_exists then raise (SystemExit "Input not found")
  else
    let* outs := lift (output_paths (video args) (to args)) in
    let* tr := lift transcription in
    let* _ := write_srt (fst tr) (fst outs) in
    let* pair := lift (language_pair (language args) (to args) (snd tr)) in
    let* translator := lift opus in
    translate_srt_opus (fst outs) (snd outs) translator (fst pair) (snd pair)
      (batch_size args).

(** What a run leaves in the file system, given the two output paths. *)
Definition writes_only (out_orig out_trans : string)
    (transcription : Transcription)
    (st : State) (r : Exception + unit) (st' : State) : Prop :=
  (forall p, p <> out_orig -> p <> out_trans -> files st' !! p = files st !! p) /\
  (r = inr tt ->
   exists segments detected d',
     transcription = inr (segments, detected) /\
     files st'
     = <[out_trans := srt_compose d']>
         (<[out_orig := srt_compose (write_srt_subs timedelta_seconds segments)]>
            (files st))).

End Scripts.

(** ** SrtCodec *)

Module SrtCodec.

(** Decimal numerals. *)
Definition show_N (n : N) : string := NilEmpty.string_of_uint (N.to_uint n).

Definition show_nat (n : nat) : string := NilEmpty.string_of_uint (Nat.to_uint n).

Definition read_uint (s : string) : option Decimal.uint :=
  match s with
  | EmptyString => None
  | _ => NilEmpty.uint_of_string s
  end.

Definition read_N (s : string) : option N := option_map N.of_uint (read_uint s).

Definition read_nat (s : string) : option nat := option_map Nat.of_uint (read_uint s).

(** Left padding with zeros to a width of [w] characters. *)
Fixpoint zeros (k : nat) : string :=
  match k with
  | O => EmptyString
  | S k' => String "0" (zeros k')
  end.

Definition zfill (w : nat) (s : string) : string :=
  zeros (w - String.length s) ++ s.

(** [sep.join(parts)] *)
Fixpoint join (sep : string) (parts : list string) : string :=
  match parts with
  | [] => EmptyString
  | [p] => p
  | p :: rest => p ++ sep ++ join sep rest
  end.

Definition newline : ascii := ascii_of_nat 10.

Definition nl : string := String newline EmptyString.

(** Modelled from the spec: the timestamp rendering of [compose] in the
    [srt] package, which the repository imports and does not contain.
    Spec 4.1: "fixed-width zero-padded HH:MM:SS,mmm timestamps"; a
    duration is cut to whole milliseconds. *)
Definition timestamp (t : timedelta) : string :=
  let ms := Z.to_N (t / 1000) in
  zfill 2 (show_N (ms / 3600000)) ++ ":" ++
  zfill 2 (show_N ((ms / 60000) mod 60)) ++ ":" ++
  zfill 2 (show_N ((ms / 1000) mod 60)) ++ "," ++
  zfill 3 (show_N (ms mod 1000)).

(** Modelled from the spec: one block of [compose] ([srt] package, not in
    the repository).  Spec 6: "sequence number; HH:MM:SS,mmm -->
    HH:MM:SS,mmm; one or more text lines". *)
(** Modelled from the spec: the timestamp line of [compose], spec 4.1
    "HH:MM:SS,mmm --> HH:MM:SS,mmm" ([srt] package, not in the
    repository). *)
Definition times_line (sub : Subtitle) : string :=
  timestamp (start sub) ++ " --> " ++ timestamp (end_ sub).

Definition block (sub : Subtitle) : string :=
  show_nat (index sub) ++ nl ++ times_line sub ++ nl ++ content sub ++ nl.

(** Modelled from the spec: [compose] of the [srt] package (not in the
    repository).  Spec 4.1: "deterministic rendering ..., entries
    separated by one blank line, trailing newline". *)
Definition compose (document : list Subtitle) : string :=
  join nl (map block document).

(** Modelled from the spec: the timestamp reader of [parse] ([srt]
    package, not in the repository).  Spec 4.1: "a timestamp line of the
    form HH:MM:SS,mmm"; hours take two digits or more, minutes and
    seconds two, milliseconds three. *)
Definition read_timestamp (s : string) : option timedelta :=
  match Py.split ":" s with
  | [hh; mm; rest] =>
      match Py.split "," rest with
      | [ss; mmm] =>
          if (2 <=? String.length hh)%nat && (String.length mm =? 2)%nat
             && (String.length ss =? 2)%nat && (String.length mmm =? 3)%nat
          then
            match read_N hh, read_N mm, read_N ss, read_N mmm with
            | Some h, Some m, Some s', Some ms =>
                Some (Z.of_N (((h * 60 + m) * 60 + s') * 1000 + ms) * 1000)%Z
            | _, _, _, _ => None
            end
          else None
      | _ => None
      end
  | _ => None
  end.

(** Modelled from the spec: the timestamp line [A --> B]. *)
Definition read_times (line : string) : option (timedelta * timedelta) :=
  match Py.split " " line with
  | [a; arrow; b] =>
      if String.eqb arrow "-->" then
        match read_timestamp a, read_timestamp b with
        | Some ta, Some tb => Some (ta, tb)
        | _, _ => None
        end
      else None
  | _ => None
  end.

(** Modelled from the spec: the end of a block in [parse] ([srt] package,
    not in the repository).  [cur] holds the lines of the block being
    read; a blank line closes it, and blank lines between blocks add
    nothing. *)
Definition flush (cur : list string) : list (list string) :=
  match cur with
  | [] => []
  | _ => [cur]
  end.

(** Modelled from the spec: the grouping of lines into blocks by [parse],
    spec 4.1 "splits on blank-line-separated blocks" ([srt] package, not
    in the repository). *)
Fixpoint blocks (cur : list string) (lines : list string) : list (list string) :=
  match lines with
  | [] => flush cur
  | l :: rest =>
      if String.eqb l EmptyString then flush cur ++ blocks [] rest
      else blocks (cur ++ [l]) rest
  end.

(** Modelled from the spec: one block of [parse].  Spec 4.1: "each block
    must contain an index line, a timestamp line ..., and one or more
    content lines.  Fails with FormatError on a missing/malformed
    timestamp or non-integer index." *)
Definition parse_block (lines : list string) : Exception + Subtitle :=
  match lines with
  | idx :: times :: c :: cs =>
      match read_nat idx with
      | None => inl (FormatError "non-integer index")
      | Some i =>
          match read_times times with
          | None => inl (FormatError "malformed timestamp")
          | Some (ta, tb) =>
              inr {| index := i; start := ta; end_ := tb;
                     content := join nl (c :: cs) |}
          end
      end
  | _ => inl (FormatError "incomplete block")
  end.

(** Modelled from the spec: [parse] block by block, stopping at the first
    [FormatError] ([srt] package, not in the repository). *)
Fixpoint parse_blocks (bs : list (list string)) : Exception + list Subtitle :=
  match bs with
  | [] => inr []
  | b :: rest =>
      match parse_block b with
      | inl e => inl e
      | inr sub =>
          match parse_blocks rest with
          | inl e => inl e
          | inr subs => inr (sub :: subs)
          end
      end
  end.

(** Modelled from the spec: [parse] of the [srt] package (not in the
    repository).  Spec 4.1: "splits on blank-line-separated blocks". *)
Definition parse (text : string) : Exception + list Subtitle :=
  parse_blocks (blocks [] (Py.split newline text)).

(** [k] newlines. *)
Fixpoint newlines (k : nat) : string :=
  match k with
  | O => EmptyString
  | S k' => String newline (newlines k')
  end.

(** [s] without the newlines at its end. *)
Fixpoint chomp (s : string) : string :=
  match s with
  | EmptyString => EmptyString
  | String c s' =>
      match chomp s' with
      | EmptyString =>
          if Ascii.eqb c newline then EmptyString else String c EmptyString
      | r => String c r
      end
  end.

(** A document the format can carry: times are not negative, and every
    content, up to the newlines at its end, has at least one line and no
    blank line. *)
Definition valid_content (c : string) : Prop :=
  Forall (fun l => l <> EmptyString) (Py.split newline (chomp c)).

Definition valid_entry (sub : Subtitle) : Prop :=
  (0 <= start sub)%Z /\ (0 <= end_ sub)%Z /\ valid_content (content sub).

Definition valid_document (d : list Subtitle) : Prop := Forall valid_entry d.

(** The lines of the block of [sub] up to the first blank one. *)
Definition block_lines (sub : Subtitle) : list string :=
  show_nat (index sub) :: times_line sub
    :: Py.split newline (chomp (content sub)).

(** [sub] as it is read back: times cut to whole milliseconds, content
    without the newlines at its end. *)
Definition to_milliseconds (sub : Subtitle) : Subtitle :=
  {| index := index sub;
     start := (start sub / 1000 * 1000)%Z;
     end_ := (end_ sub / 1000 * 1000)%Z;
     content := chomp (content sub) |}.

(** Whole milliseconds of a duration. *)
Definition milliseconds (t : timedelta) : Z := (t / 1000)%Z.

(** Structural equality of two entries: index, timestamps to the
    millisecond, content up to trailing white space. *)
Definition entry_equal (a b : Subtitle) : Prop :=
  index a = index b /\
  milliseconds (start a) = milliseconds (start b) /\
  milliseconds (end_ a) = milliseconds (end_ b) /\
  Py.rstrip (content a) = Py.rstrip (content b).

End SrtCodec.

(** ** BatchMultilingualBackend *)

Module BatchBackend.

Section Engine.

(** The multilingual model on one sentence: source code, target code,
    sentence. *)
Variable translate_sentence : string -> string -> string -> string.

(** Modelled from the spec: the batching inside [EasyNMT.translate],
    which the repository calls and does not contain.  Spec 4.2:
    "translates the full list of entry contents in fixed-size batches
    (configurable batch size)".  The list is cut into consecutive runs of
    [size] sentences, the last one possibly shorter; [fuel] bounds the
    number of runs. *)
Fixpoint batches (fuel size : nat) (sentences : list string)
    : list (list string) :=
  match fuel, sentences with
  | S fuel', _ :: _ =>
      take size sentences :: batches fuel' size (drop size sentences)
  | _, _ => []
  end.

(** Modelled from the spec: one call of the model, "submitting source and
    target codes explicitly per call". *)
Definition translate_batch (src_lang tgt_lang : string) (batch : list string)
    : list string :=
  map (translate_sentence src_lang tgt_lang) batch.

(** Modelled from the spec: [EasyNMT.translate] on a list of sentences
    (not in the repository): every batch is translated and the results
    are put back in order.  A batch size below one is refused. *)
Definition translate : BatchEngine :=
  fun sentences src_lang tgt_lang batch_size =>
    if (batch_size <=? 0)%Z then inl (ValueError "batch size")
    else
      inr (concat (map (translate_batch src_lang tgt_lang)
                     (batches (length sentences) (Z.to_nat batch_size)
                        sentences))).

End Engine.

End BatchBackend.

(** ** Python integers as text *)

Module PyInt.

(** [sys.int_info.default_max_str_digits]: the longest numeral, counted
    in digits, that [int] reads and [str] writes (Python 3.11 and later,
    with the limit left at its default). *)
Definition max_str_digits : nat := 4300.

(** [str(n)] for an [int] of at most [max_str_digits] digits; on a
    longer one [str] raises [ValueError]. *)
Definition str (n : Z) : string := NilEmpty.string_of_int (Z.to_int n).

(** The number of decimal digits of [n], its sign left out. *)
Definition digits (n : Z) : nat := String.length (str (Z.abs n)).

(** The white space [int] skips around a numeral: TAB..CR and space, and
    in text that is not ASCII also NEL (0x85) and NBSP (0xA0).  Unlike
    [str.strip], [int] does not skip FS..US (0x1C..0x1F). *)
Definition isspace (c : ascii) : bool :=
  let n := N_of_ascii c in
  ((9 <=? n) && (n <=? 13) || (n =? 32) || (n =? 133) || (n =? 160))%N.

Fixpoint skip_left (s : string) : string :=
  match s with
  | String c s' => if isspace c then skip_left s' else s
  | EmptyString => EmptyString
  end.

Fixpoint skip_right (s : string) : string :=
  match s with
  | String c s' =>
      match skip_right s' with
      | EmptyString => if isspace c then EmptyString else String c EmptyString
      | r => String c r
      end
  | EmptyString => EmptyString
  end.

(** The characters of an integer literal without the single underscores
    that may stand between two of them; [None] when an underscore comes
    first, last or twice in a row, or when there is no character at all. *)
Fixpoint drop_underscores (after_digit : bool) (s : string) : option string :=
  match s with
  | EmptyString => if after_digit then Some EmptyString else None
  | String c s' =>
      if Ascii.eqb c "_" then
        if after_digit then drop_underscores false s' else None
      else option_map (String c) (drop_underscores true s')
  end.

(** An unsigned literal in base ten, of at most [max_str_digits] digits
    (leading zeros count, underscores do not). *)
Definition of_digits (s : string) : option Z :=
  match drop_underscores false s with
  | Some ds =>
      if (String.length ds <=? max_str_digits)%nat
      then option_map Z.of_uint (NilEmpty.uint_of_string ds)
      else None
  | None => None
  end.

(** [int(s)] in base ten on 8-bit text: surrounding white space, an
    optional sign, digits.  [None] stands for [ValueError]. *)
Definition int (s : string) : option Z :=
  match skip_right (skip_left s) with
  | String "+" r => of_digits r
  | String "-" r => option_map Z.opp (of_digits r)
  | r => of_digits r
  end.

End PyInt.

(** ** main.py: the interactive launcher *)

Module Launcher.

(** Reading from standard input, a list of lines: the value read and the
    lines left, [sys.exit(code)], or the [EOFError] of [input()] when no
    line is left.  The prompts and messages printed are left out. *)
Inductive Read (A : Type) :=
| Got (a : A) (rest : list string)
| Exit (code : Z)
| EOFError.

Arguments Got {A} a rest.
Arguments Exit {A} code.
Arguments EOFError {A}.

Definition and_then {A B} (r : Read A) (k : A -> list string -> Read B) : Read B :=
  match r with
  | Got a rest => k a rest
  | Exit code => Exit code
  | EOFError => EOFError
  end.

(** A line the duration loop of [main] turns down: not blank, and not a
    positive integer. *)
Definition duration_refused (l : string) : Prop :=
  Py.strip l <> EmptyString /\
  forall n, PyInt.int (Py.strip l) = Some n -> (n <= 0)%Z.

(** How the child process ended: [Popen] raised [FileNotFoundError],
    something else was raised, or the child returned a code. *)
Inductive Child :=
| NotFound
| Failed
| Returned (code : Z).

(** How [main] ends. *)
Inductive Status :=
| Returns
| SysExit (code : Z)
| RaisesEOFError.

Section Main.

(** Python floats: [float(s)] ([None] for [ValueError]), the test
    [0.1 <= t <= 1.0], the constant [0.5] and [str(t)]. *)
Variable float : Type.
Variable float_of_string : string -> option float.
Variable in_range : float -> bool.
Variable default_threshold : float.
Variable str_float : float -> string.

(** [os.sep], and the run of the child by [subprocess.Popen]. *)
Variable os_sep : string.
Variable popen : list string -> Child.

(** main.py:8-11, 14-17, 20-23: [x = input(...).strip()], exit 1 when empty. *)
Definition read_required (lines : list string) : Read string :=
  match lines with
  | [] => EOFError
  | l :: rest =>
      let x := Py.strip l in
      if String.eqb x EmptyString then Exit 1 else Got x rest
  end.

(** main.py:26-37: the loop that reads the minimum silence duration. *)
Fixpoint read_duration (lines : list string) : Read Z :=
  match lines with
  | [] => EOFError
  | l :: rest =>
      let min_silence_duration_str := Py.strip l in
      if String.eqb min_silence_duration_str EmptyString then Got 500%Z rest
      else
        match PyInt.int min_silence_duration_str with
        | Some min_silence_duration =>
            if (0 <? min_silence_duration)%Z then Got min_silence_duration rest
            else read_duration rest
        | None => read_duration rest
        end
  end.

(** main.py:40-51: the loop that reads the threshold. *)
Fixpoint read_threshold (lines : list string) : Read float :=
  match lines with
  | [] => EOFError
  | l :: rest =>
      let threshold_str := Py.strip l in
      if String.eqb threshold_str EmptyString then Got default_threshold rest
      else
        match float_of_string threshold_str with
        | Some threshold =>
            if in_range threshold then Got threshold rest
            else read_threshold rest
        | None => read_threshold rest
        end
  end.

(** [library in ["argos", "opus"]] *)
Definition known_library (library : string) : bool :=
  String.eqb library "argos" || String.eqb library "opus".

(** main.py:54-59: [library] starts empty, so the loop reads at least
    one line. *)
Fixpoint read_library (lines : list string) : Read string :=
  match lines with
  | [] => EOFError
  | l :: rest =>
      let library := Py.strip (Py.lower l) in
      if known_library library then Got library rest else read_library rest
  end.

(** main.py:62-70: [os.path.join("src", f"tl_{library}.py")] and the
    argument list. *)
Definition script_path (library : string) : string :=
  "src" ++ os_sep ++ "tl_" ++ library ++ ".py".

Definition command (video_path language translate_to : string)
    (min_silence_duration : Z) (threshold : float) (library : string)
    : list string :=
  [ "uv"; "run"; script_path library; video_path;
    "--language"; language; "--to"; translate_to;
    "--vad-ms"; PyInt.str min_silence_duration;
    "--vad-threshold"; str_float threshold ].

(** main.py:7-70: everything up to the command. *)
Definition gather (lines : list string) : Read (list string) :=
  and_then (read_required lines) (fun video_path lines =>
  and_then (read_required lines) (fun language lines =>
  and_then (read_required lines) (fun translate_to lines =>
  and_then (read_duration lines) (fun min_silence_duration lines =>
  and_then (read_threshold lines) (fun threshold lines =>
  and_then (read_library lines) (fun library lines =>
  Got (command video_path language translate_to min_silence_duration
         threshold library) lines)))))).

(** main.py:80-110: run the command and pass its return code on.
    [sys.exit] inside the [try] is not an [Exception], so no handler
    catches it. *)
Definition launch (cmd : list string) : Status :=
  match popen cmd with
  | Returned code => if (code =? 0)%Z then Returns else SysExit code
  | NotFound => SysExit 1
  | Failed => SysExit 1
  end.

(** main.py:5-110 *)
Definition main (lines : list string) : Status :=
  match gather lines with
  | Got cmd _ => launch cmd
  | Exit code => SysExit code
  | EOFError => RaisesEOFError
  end.

End Main.

End Launcher.

(** ** cleanup.py *)

Module Cleanup.

(** A directory path as its components. *)
Definition Dir : Type := list string.

(** What [remove_dir] and [main] print. *)
Inductive Message :=
| Removed (path : Dir)
| ErrorRemoving (path : Dir) (e : string)
| DirectoryNotFound (path : Dir)
| Cancelled
| InvalidChoice
| InvalidInput.

(** cleanup.py:7-15, the dictionary with its two keys. *)
Record CacheDirs := mkCacheDirs {
  whisper : list Dir;
  argos : list Dir
}.

Definition get_cache_dirs (home : Dir) : CacheDirs :=
  {| whisper := [(home ++ [".cache"; "huggingface"; "hub"])%list];
     argos := [(home ++ [".local"; "share"; "argos-translate"])%list;
               (home ++ [".local"; "cache"; "argos-translate"])%list] |}.

(** [cache_dirs.values()], in insertion order. *)
Definition values (c : CacheDirs) : list (list Dir) := [whisper c; argos c].

Section Cleaner.

(** The file system: [path.exists()], and [shutil.rmtree(path)], which
    gives the file system it leaves and the [OSError] it raised, if any. *)
Variable FS : Type.
Variable exists_ : Dir -> FS -> bool.
Variable rmtree : Dir -> FS -> option string * FS.

(** cleanup.py:17-25 *)
Definition remove_dir (path : Dir) (st : FS * list Message) : FS * list Message :=
  let '(fs, out) := st in
  if exists_ path fs then
    match rmtree path fs with
    | (None, fs') => (fs', (out ++ [Removed path])%list)
    | (Some e, fs') => (fs', (out ++ [ErrorRemoving path e])%list)
    end
  else (fs, (out ++ [DirectoryNotFound path])%list).

(** [for path in paths: remove_dir(path)] *)
Definition remove_all (paths : list Dir) (st : FS * list Message)
    : FS * list Message :=
  foldl (fun st path => remove_dir path st) st paths.

(** The directories a choice names. *)
Definition selected (home : Dir) (choice : Z) : list Dir :=
  let cache_dirs := get_cache_dirs home in
  if (choice =? 1)%Z then whisper cache_dirs
  else if (choice =? 2)%Z then argos cache_dirs
  else if (choice =? 3)%Z then concat (values cache_dirs)
  else [].

(** cleanup.py:27-58; [line] is what [input()] returned. *)
Definition main (home : Dir) (line : string) (fs : FS) : FS * list Message :=
  match PyInt.int line with
  | None => (fs, [InvalidInput])
  | Some choice =>
      if (choice =? 1)%Z then remove_all (whisper (get_cache_dirs home)) (fs, [])
      else if (choice =? 2)%Z then remove_all (argos (get_cache_dirs home)) (fs, [])
      else if (choice =? 3)%Z then
        foldl (fun st cache_type => remove_all cache_type st) (fs, [])
          (values (get_cache_dirs home))
      else if (choice =? 4)%Z then (fs, [Cancelled])
      else (fs, [InvalidChoice])
  end.

End Cleaner.

(** The directories named by the line typed at the menu. *)
Definition chosen (home : Dir) (line : string) : list Dir :=
  match PyInt.int line with
  | Some choice => selected home choice
  | None => []
  end.

(** [m] is one of the three messages of [remove_dir] about [path]. *)
Definition reports (path : Dir) (m : Message) : Prop :=
  m = Removed path \/ (exists e, m = ErrorRemoving path e) \/
  m = DirectoryNotFound path.

(** A file system for running the definitions: the directories that
    exist; [rmtree] removes a directory with everything below it. *)
Definition ListFS : Type := list Dir.

Definition list_exists (path : Dir) (fs : ListFS) : bool :=
  bool_decide (path ∈ fs).

Definition list_rmtree (path : Dir) (fs : ListFS) : option string * ListFS :=
  (None, filter (fun q => ~ path `prefix_of` q) fs).

End Cleanup.

(** ** A small Argos registry to run the definitions on *)

Module Demo.

(** A language is its code with the codes it translates to; a translation
    and a package are a pair of codes; translating prefixes the target
    code.  Download and install are left open. *)
Definition argos
    (dl : string * string -> Exception + string * string)
    (inst : string * string -> list (string * list string)
            -> Exception + list (string * list string)) : Argos :=
  {| Language := string * list string;
     Translation := string * string;
     Package := string * string;
     ModelPath := string * string;
     lang_code := fst;
     get_translation := fun a b =>
       if existsb (String.eqb (fst b)) (snd a) then Some (fst a, fst b) else None;
     translate := fun tr s => snd tr ++ ":" ++ s;
     from_code := fst;
     to_code := snd;
     download := dl;
     install_from_path := inst |}.

(** An install that registers both languages of the model. *)
Definition install_ok (m : string * string) (reg : list (string * list string))
    : Exception + list (string * list string) :=
  inr (reg ++ [(fst m, [snd m]); (snd m, [])])%list.

(** An install that returns without registering anything. *)
Definition install_silent (m : string * string) (reg : list (string * list string))
    : Exception + list (string * list string) :=
  inr reg.

Definition download_ok (pkg : string * string) : Exception + string * string :=
  inr pkg.

Definition lib : Argos := argos download_ok install_ok.

Definition lib_silent : Argos := argos download_ok install_silent.

(** A batch engine that answers with no sentence at all. *)
Definition mute : BatchEngine := fun _ _ _ _ => inr [].

(** French and English installed, each translating to the other. *)
Definition world_installed : @World lib :=
  @mkWorld lib [("fr", ["en"]); ("en", ["fr"])] (inr [("en", "id")]) [].

(** Nothing installed; the catalog offers en-id and fr-en. *)
Definition world_empty (A : Argos) (catalog : list (@Package A)) : @World A :=
  @mkWorld A [] (inr catalog) [].

(** Three entries: (0.0, 1.2, Hi), (1.2, 2.0, Bye), (2.0, 3.5, End). *)
Definition document : list Subtitle :=
  [ mkSubtitle 1 0 1200000 "Hi";
    mkSubtitle 2 1200000 2000000 "Bye";
    mkSubtitle 3 2000000 3500000 "End" ]%Z.

(** The document stored under [in.srt]. *)
Definition state : @State lib :=
  @mkState lib world_installed {[ "in.srt" := SrtCodec.compose document ]}.

(** A sentence model that prefixes the target code. *)
Definition tag (src tgt s : string) : string := tgt ++ ":" ++ s.

Definition args : Args :=
  mkArgs (mkPath "/videos/" "talk.mp4") "auto" "id" 32%Z.

End Demo.

(** ** Inputs for running the launcher, the cleaner and whole runs *)

Module Sample.

(** Thresholds as whole tenths: "5" stands for 0.5, the range is 1..10. *)
Definition in_range (t : Z) : bool := (1 <=? t)%Z && (t <=? 10)%Z.

(** What is typed at the prompts of main.py: two refused durations, a
    refused threshold and a refused library among the answers. *)
Definition lines : list string :=
  [" talk.mp4 "; "fr"; "en"; "soon"; "-3"; "250"; "99"; ""; "x"; " ARGOS "].

Definition gather : list string -> Launcher.Read (list string) :=
  Launcher.gather Z PyInt.int in_range 5%Z PyInt.str "/".

(** The digit 3 after the control character FS (0x1C), which [str.strip]
    removes and [int] does not skip. *)
Definition fs_three : string := String (ascii_of_nat 28) "3".

(** A home directory with the Whisper cache, one Argos directory and a
    directory of the user's own. *)
Definition home : Cleanup.Dir := ["home"; "u"].

Definition disk : Cleanup.ListFS :=
  [ ["home"; "u"; ".cache"; "huggingface"; "hub"];
    ["home"; "u"; ".cache"; "huggingface"; "hub"; "models"];
    ["home"; "u"; ".local"; "share"; "argos-translate"];
    ["home"; "u"; "videos"] ].

Definition cleanup : string -> Cleanup.ListFS -> Cleanup.ListFS * list Cleanup.Message :=
  Cleanup.main Cleanup.ListFS Cleanup.list_exists Cleanup.list_rmtree home.

(** A run from French to English: one segment, French detected. *)
Definition args : Args :=
  mkArgs (mkPath "/videos/" "talk.mp4") "auto" "en" 32%Z.

Definition transcription : Transcription Z :=
  inr ([(0, 1200000, " Salut ")%Z], Some "fr").

Definition run_argos : M (@State Demo.lib) unit :=
  @main_argos Demo.lib Z (fun x => x) SrtCodec.compose SrtCodec.parse
    args true transcription.

Definition run_opus : M (@State Demo.lib) unit :=
  @main_opus Demo.lib Z (fun x => x) SrtCodec.compose SrtCodec.parse
    (inr (BatchBackend.translate Demo.tag)) args true transcription.

End Sample.

(** * Properties *)

Local Open Scope list_scope.

(** ** Python strings *)

Lemma lstrip_head s c :
  Py.head (Py.lstrip s) = Some c -> Py.isspace c = false.
Proof.
  induction s as [|a s IH]; simpl; [discriminate|].
  destruct (Py.isspace a) eqn:Ha; [exact IH|].
  simpl. intros [= <-]. exact Ha.
Qed.

Lemma rstrip_head s c :
  Py.head (Py.rstrip s) = Some c -> Py.head s = Some c.
Proof.
  destruct s as [|a s]; simpl; [discriminate|].
  destruct (Py.rstrip s); [destruct (Py.isspace a)|]; simpl; congruence.
Qed.

Lemma rstrip_last s c :
  Py.last (Py.rstrip s) = Some c -> Py.isspace c = false.
Proof.
  induction s as [|a s IH]; simpl; [discriminate|].
  destruct (Py.rstrip s) as [|b r] eqn:Hr.
  - destruct (Py.isspace a) eqn:Ha; simpl; [discriminate|].
    intros [= <-]. exact Ha.
  - exact IH.
Qed.

Lemma strip_no_leading_space s c :
  Py.head (Py.strip s) = Some c -> Py.isspace c = false.
Proof. intros Hc. apply (lstrip_head s), rstrip_head, Hc. Qed.

Lemma strip_no_trailing_space s c :
  Py.last (Py.strip s) = Some c -> Py.isspace c = false.
Proof. apply rstrip_last. Qed.

(** The white space of [str.strip], by code point. *)
Lemma isspace_spec c :
  Py.isspace c = true <->
  (9 <= N_of_ascii c <= 13 \/ 28 <= N_of_ascii c <= 32 \/
   N_of_ascii c = 133 \/ N_of_ascii c = 160)%N.
Proof.
  unfold Py.isspace. cbv zeta.
  rewrite !orb_true_iff, !andb_true_iff, !N.leb_le, !N.eqb_eq. tauto.
Qed.

Lemma lstrip_split s :
  exists l, s = (l ++ Py.lstrip s)%string /\
            Forall (fun c => Py.isspace c = true) (list_ascii_of_string l).
Proof.
  induction s as [|a s (l & Hs & Hl)].
  - exists EmptyString. split; [reflexivity | constructor].
  - cbn [Py.lstrip]. destruct (Py.isspace a) eqn:Ha.
    + exists (String a l). split; [|by constructor].
      change (String a s = String a (l ++ Py.lstrip s)%string). congruence.
    + exists EmptyString. split; [reflexivity | constructor].
Qed.

Lemma rstrip_split s :
  exists r, s = (Py.rstrip s ++ r)%string /\
            Forall (fun c => Py.isspace c = true) (list_ascii_of_string r).
Proof.
  induction s as [|a s (r & Hs & Hr)].
  - exists EmptyString. split; [reflexivity | constructor].
  - cbn [Py.rstrip]. destruct (Py.rstrip s) as [|b t] eqn:Ht.
    + simpl in Hs. subst r. destruct (Py.isspace a) eqn:Ha.
      * exists (String a s). split; [reflexivity | by constructor].
      * exists s. split; [reflexivity | done].
    + exists r. split; [|done].
      change (String a s = String a (String b t ++ r)%string). congruence.
Qed.

(** [s.strip()] is [s] without a run of white space at either end. *)
Lemma strip_split s :
  exists l r, s = (l ++ Py.strip s ++ r)%string /\
              Forall (fun c => Py.isspace c = true) (list_ascii_of_string l) /\
              Forall (fun c => Py.isspace c = true) (list_ascii_of_string r).
Proof.
  destruct (lstrip_split s) as (l & Hs & Hl).
  destruct (rstrip_split (Py.lstrip s)) as (r & Hs' & Hr).
  exists l, r. unfold Py.strip. split; [congruence | done].
Qed.

(** ** [write_srt] *)

Section WriteSrtFacts.
Context {seconds : Type} (timedelta_seconds : seconds -> timedelta).

Local Abbreviation loop := (write_srt_loop timedelta_seconds).
Local Abbreviation entry := (subtitle_of timedelta_seconds).

Lemma write_srt_loop_app i segments subs :
  loop i segments subs = subs ++ zip_with entry (seq i (length segments)) segments.
Proof.
  revert i subs. induction segments as [|seg rest IH]; intros i subs; simpl.
  - by rewrite app_nil_r.
  - rewrite IH, <- app_assoc. reflexivity.
Qed.

Lemma write_srt_subs_zip segments :
  write_srt_subs timedelta_seconds segments
  = zip_with entry (seq 1 (length segments)) segments.
Proof. unfold write_srt_subs. by rewrite write_srt_loop_app. Qed.

Lemma zip_entry_index i segments :
  map index (zip_with entry (seq i (length segments)) segments)
  = seq i (length segments).
Proof.
  revert i. induction segments as [|seg rest IH]; intros i; simpl; [done|].
  by rewrite IH.
Qed.

Lemma zip_entry_Forall2 (P : Segment seconds -> Subtitle -> Prop) i segments :
  (forall k seg, P seg (entry k seg)) ->
  Forall2 P segments (zip_with entry (seq i (length segments)) segments).
Proof.
  intros HP. revert i.
  induction segments as [|seg rest IH]; intros i; simpl; constructor; auto.
Qed.

End WriteSrtFacts.

(** C8 as stated fails: the content of an entry is not the text of its
    segment when the text starts (or ends) with white space. *)
Lemma write_srt_content_is_not_text :
  ~ (forall (segments : list (Segment Z)) i seg sub,
       segments !! i = Some seg ->
       write_srt_subs (fun x => (x * 1000000)%Z) segments !! i = Some sub ->
       index sub = S i /\ content sub = seg_text seg).
Proof.
  intros H.
  destruct (H [(0%Z, 1%Z, " Hi")] 0%nat (0%Z, 1%Z, " Hi")
              (mkSubtitle 1 0%Z 1000000%Z "Hi") eq_refl eq_refl) as [_ Hc].
  discriminate Hc.
Qed.

(** C8, amended: the list built by [write_srt] from N segments has N
    entries, entry i (from 1) has index i, the start and end times of
    segment i, and the text of segment i stripped of leading and trailing
    white space; the indices are 1..N in order. *)
Theorem write_srt_subs_dense {seconds : Type}
    (timedelta_seconds : seconds -> timedelta) (segments : list (Segment seconds)) :
  let subs := write_srt_subs timedelta_seconds segments in
  length subs = length segments /\
  map index subs = seq 1 (length segments) /\
  subs = zip_with (fun i seg =>
                     {| index := i;
                        start := timedelta_seconds (seg_start seg);
                        end_ := timedelta_seconds (seg_end seg);
                        content := Py.strip (seg_text seg) |})
           (seq 1 (length segments)) segments.
Proof.
  cbv zeta. rewrite write_srt_subs_zip. split; [|split].
  - rewrite <- (length_map index), zip_entry_index. apply length_seq.
  - apply zip_entry_index.
  - reflexivity.
Qed.

(** C10: every entry built by [write_srt] has as content the text of its
    segment with leading and trailing white space stripped: the text is
    a run of white space, the content, and a run of white space, and the
    content neither starts nor ends with a white-space character.  White
    space is, by code point, 9..13, 28..32, 133 and 160. *)
Theorem write_srt_strips_content {seconds : Type}
    (timedelta_seconds : seconds -> timedelta) (segments : list (Segment seconds)) :
  let white := fun c : ascii =>
    (9 <= N_of_ascii c <= 13 \/ 28 <= N_of_ascii c <= 32 \/
     N_of_ascii c = 133 \/ N_of_ascii c = 160)%N in
  Forall2 (fun seg sub =>
             content sub = Py.strip (seg_text seg) /\
             (exists l r,
                seg_text seg = (l ++ content sub ++ r)%string /\
                Forall white (list_ascii_of_string l) /\
                Forall white (list_ascii_of_string r)) /\
             (forall c, Py.head (content sub) = Some c -> ~ white c) /\
             (forall c, Py.last (content sub) = Some c -> ~ white c))
    segments (write_srt_subs timedelta_seconds segments).
Proof.
  cbv zeta. rewrite write_srt_subs_zip. apply zip_entry_Forall2.
  intros k seg. simpl. split; [reflexivity|]. split; [|split].
  - destruct (strip_split (seg_text seg)) as (l & r & Hs & Hl & Hr).
    exists l, r. split; [exact Hs|].
    split; (eapply Forall_impl; [eassumption|]); intros c Hc; by apply isspace_spec.
  - intros c Hc Hw. apply isspace_spec in Hw.
    by rewrite (strip_no_leading_space _ _ Hc) in Hw.
  - intros c Hc Hw. apply isspace_spec in Hw.
    by rewrite (strip_no_trailing_space _ _ Hc) in Hw.
Qed.

(** ** The translation loops *)

Lemma translate_loop_map translate subs :
  translate_loop translate subs
  = map (fun sub => set_content sub (translate (content sub))) subs.
Proof. induction subs as [|sub rest IH]; simpl; congruence. Qed.

Lemma translate_loop_frame translate subs :
  Forall2 same_frame subs (translate_loop translate subs).
Proof.
  induction subs as [|sub rest IH]; simpl; constructor; auto.
  repeat split.
Qed.

Lemma translate_loop_content translate subs :
  Forall2 (fun a b => content b = translate (content a))
    subs (translate_loop translate subs).
Proof. induction subs as [|sub rest IH]; simpl; constructor; auto. Qed.

Lemma assign_loop_frame i subs translated subs' :
  assign_loop i subs translated = inr subs' ->
  Forall2 same_frame subs subs'.
Proof.
  revert i subs'. induction subs as [|sub rest IH]; intros i subs'; simpl.
  - intros [= <-]. constructor.
  - destruct (translated !! i) as [t|]; [|discriminate].
    destruct (assign_loop (S i) rest translated) as [e|rest'] eqn:Hrest;
      [discriminate|].
    intros [= <-]. constructor; [repeat split | eauto].
Qed.

Lemma assign_loop_content i subs translated subs' :
  assign_loop i subs translated = inr subs' ->
  forall k sub', subs' !! k = Some sub' -> translated !! (i + k)%nat = Some (content sub').
Proof.
  revert i subs'. induction subs as [|sub rest IH]; intros i subs'; simpl.
  - intros [= <-] k sub' Hk. discriminate.
  - destruct (translated !! i) as [t|] eqn:Ht; [|discriminate].
    destruct (assign_loop (S i) rest translated) as [e|rest'] eqn:Hrest;
      [discriminate|].
    intros [= <-] [|k] sub' Hk; simpl in Hk.
    + injection Hk as <-. simpl. by rewrite Nat.add_0_r.
    + replace (i + S k)%nat with (S i + k)%nat by lia. eauto.
Qed.

Lemma assign_loop_total i subs (translated : list string) :
  (i + length subs <= length translated)%nat ->
  exists subs', assign_loop i subs translated = inr subs'.
Proof.
  revert i. induction subs as [|sub rest IH]; intros i Hlen; simpl in *.
  - eauto.
  - destruct (lookup_lt_is_Some_2 translated i) as [t Ht]; [lia|].
    rewrite Ht. destruct (IH (S i)) as [rest' Hrest]; [lia|].
    rewrite Hrest. eauto.
Qed.

Section TranslateFacts.
Context `{Argos}.
Variable srt_compose : list Subtitle -> string.
Variable srt_parse : string -> Exception + list Subtitle.

Local Abbreviation translate_srt' := (translate_srt srt_compose srt_parse).
Local Abbreviation translate_srt_opus' := (translate_srt_opus srt_compose srt_parse).

Lemma translate_srt_run in_srt out_srt translator st text d :
  files st !! in_srt = Some text ->
  srt_parse text = inr d ->
  translate_srt' in_srt out_srt translator st
  = (inr tt, wrote st out_srt
               (srt_compose (translate_loop (translate translator) d))).
Proof.
  intros Hin Hd. unfold translate_srt, bind, read_file, lift.
  rewrite Hin, Hd. reflexivity.
Qed.

Lemma translate_srt_opus_run in_srt out_srt engine src tgt bs st text d :
  files st !! in_srt = Some text ->
  srt_parse text = inr d ->
  translate_srt_opus' in_srt out_srt engine src tgt bs st
  = match translate_subs_opus engine src tgt bs d with
    | inl e => (inl e, st)
    | inr d' => (inr tt, wrote st out_srt (srt_compose d'))
    end.
Proof.
  intros Hin Hd. unfold translate_srt_opus, bind, read_file, lift.
  rewrite Hin, Hd. simpl.
  destruct (translate_subs_opus engine src tgt bs d); reflexivity.
Qed.

(** C1: translating the document [d] parsed from the input file, both
    [translate_srt] and [translate_srt_opus] write the composition of a
    document whose i-th entry has the index, start and end of the i-th
    entry of [d]; only the content is replaced.  The batch variant does
    so whenever the engine answers with at least as many sentences as it
    was given. *)
Theorem translation_keeps_frame in_srt out_srt st text d :
  files st !! in_srt = Some text ->
  srt_parse text = inr d ->
  (forall translator, exists d',
      translate_srt' in_srt out_srt translator st
      = (inr tt, wrote st out_srt (srt_compose d')) /\
      Forall2 same_frame d d' /\
      Forall2 (fun a b => content b = translate translator (content a)) d d') /\
  (forall engine src tgt bs st',
      translate_srt_opus' in_srt out_srt engine src tgt bs st = (inr tt, st') ->
      exists d', st' = wrote st out_srt (srt_compose d') /\
                 Forall2 same_frame d d') /\
  (forall engine src tgt bs translated,
      engine (sentences_of d) src tgt bs = inr translated ->
      (length d <= length translated)%nat ->
      exists d',
        translate_srt_opus' in_srt out_srt engine src tgt bs st
        = (inr tt, wrote st out_srt (srt_compose d')) /\
        Forall2 same_frame d d' /\
        forall k sub', d' !! k = Some sub' -> translated !! k = Some (content sub')).
Proof.
  intros Hin Hd. split; [|split].
  - intros translator. eexists.
    split; [exact (translate_srt_run in_srt out_srt translator st text d Hin Hd)|].
    split; [apply translate_loop_frame | apply translate_loop_content].
  - intros engine src tgt bs st'.
    rewrite (translate_srt_opus_run in_srt out_srt engine src tgt bs st text d Hin Hd).
    unfold translate_subs_opus.
    destruct (engine (sentences_of d) src tgt bs) as [e|translated];
      [discriminate|].
    destruct (assign_loop 0 d translated) as [e|d'] eqn:Hd'; [discriminate|].
    intros [= <-]. exists d'. split; [reflexivity|].
    eapply assign_loop_frame, Hd'.
  - intros engine src tgt bs translated Heng Hlen.
    destruct (assign_loop_total 0 d translated) as [d' Hd']; [simpl; lia|].
    exists d'. rewrite (translate_srt_opus_run in_srt out_srt engine src tgt bs st text d Hin Hd).
    unfold translate_subs_opus. rewrite Heng, Hd'.
    split; [reflexivity|]. split; [eapply assign_loop_frame, Hd'|].
    intros k sub' Hk. exact (assign_loop_content 0 d translated d' Hd' k sub' Hk).
Qed.

End TranslateFacts.

(** ** Provisioning *)

Section ProvisioningFacts.
Context `{Argos}.

(** C2: when the registry already holds a translator for the pair,
    [ensure_argos_pair] returns it at once and leaves the world as it
    was, so no catalog query, download or install is made; and after any
    successful call a second call returns the same handle, again without
    touching the world. *)
Theorem ensure_argos_pair_idempotent src_lang tgt_lang (w : World) :
  (forall tr, load_translator src_lang tgt_lang w = Some tr ->
     ensure_argos_pair src_lang tgt_lang w = (inr tr, w)) /\
  (forall tr w', ensure_argos_pair src_lang tgt_lang w = (inr tr, w') ->
     ensure_argos_pair src_lang tgt_lang w' = (inr tr, w') /\
     ops (snd (ensure_argos_pair src_lang tgt_lang w')) = ops w').
Proof.
  assert (Hfast : forall v tr, load_translator src_lang tgt_lang v = Some tr ->
            ensure_argos_pair src_lang tgt_lang v = (inr tr, v)).
  { intros v tr Hl. unfold ensure_argos_pair. by rewrite Hl. }
  split; [apply Hfast|].
  intros tr w' Hrun.
  assert (Hl : load_translator src_lang tgt_lang w' = Some tr).
  { unfold ensure_argos_pair in Hrun.
    destruct (load_translator src_lang tgt_lang w) as [tr0|] eqn:Hl0.
    - injection Hrun as <- <-. exact Hl0.
    - destruct (try_install src_lang tgt_lang w) as [[e|[]] w1]; [discriminate|].
      destruct (load_translator src_lang tgt_lang w1) as [tr1|] eqn:Hl1;
        [|discriminate].
      injection Hrun as <- <-. exact Hl1. }
  rewrite (Hfast w' tr Hl). done.
Qed.

(** C7: when the pair is not installed, the catalog has a package under
    its key, and the download and the install return without raising,
    [ensure_argos_pair] queries the registry again; if the pair is still
    absent it raises "still unavailable" and returns no handle. *)
Theorem ensure_argos_pair_still_unavailable src_lang tgt_lang (w : World)
    pkgs pkg model_path reg :
  load_translator src_lang tgt_lang w = None ->
  available w = inr pkgs ->
  available_of pkgs !! pair_key src_lang tgt_lang = Some pkg ->
  download pkg = inr model_path ->
  install_from_path model_path (installed w) = inr reg ->
  let w' := set_installed reg
              (log (OpInstall model_path) (log (OpDownload pkg) (log OpCatalog w))) in
  ensure_argos_pair src_lang tgt_lang w
  = (match load_translator src_lang tgt_lang w' with
     | Some tr => inr tr
     | None => inl (StillUnavailable src_lang tgt_lang)
     end, w') /\
  (load_translator src_lang tgt_lang w' = None ->
   ensure_argos_pair src_lang tgt_lang w
   = (inl (StillUnavailable src_lang tgt_lang), w')).
Proof.
  intros Hload Hav Hpkg Hdl Hinst w'.
  assert (Hrun : ensure_argos_pair src_lang tgt_lang w
                 = (match load_translator src_lang tgt_lang w' with
                    | Some tr => inr tr
                    | None => inl (StillUnavailable src_lang tgt_lang)
                    end, w')).
  { unfold ensure_argos_pair, try_install. rewrite Hload. simpl.
    rewrite Hav, Hpkg, Hdl. simpl. rewrite Hinst. fold w'.
    destruct (load_translator src_lang tgt_lang w'); reflexivity. }
  split; [exact Hrun|]. intros Hstill. rewrite Hrun, Hstill. reflexivity.
Qed.

End ProvisioningFacts.

(** ** Language codes *)

Lemma split_nonempty sep s : exists w ws, Py.split sep s = w :: ws.
Proof.
  destruct s as [|c s]; simpl; [eauto|].
  destruct (Ascii.eqb c sep); [eauto|].
  destruct (Py.split sep s); eauto.
Qed.

Lemma split_head_cons sep c s :
  Py.split_head sep (String c s)
  = if Ascii.eqb c sep then EmptyString else String c (Py.split_head sep s).
Proof.
  unfold Py.split_head. simpl. destruct (Ascii.eqb c sep); [reflexivity|].
  destruct (split_nonempty sep s) as (w & ws & ->). reflexivity.
Qed.

Lemma split_head_no_sep sep s : Py.contains sep (Py.split_head sep s) = false.
Proof.
  induction s as [|c s IH]; [reflexivity|].
  rewrite split_head_cons. destruct (Ascii.eqb c sep) eqn:Hc; [reflexivity|].
  simpl. by rewrite Hc.
Qed.

Lemma split_head_prefix sep s :
  s = Py.split_head sep s \/
  exists rest, s = (Py.split_head sep s ++ String sep rest)%string.
Proof.
  induction s as [|c s IH]; [by left|].
  rewrite split_head_cons. destruct (Ascii.eqb c sep) eqn:Hc.
  - apply Ascii.eqb_eq in Hc as ->. right. by exists s.
  - destruct IH as [IH|[rest IH]]; [left | right; exists rest];
      simpl; by rewrite <- IH.
Qed.

Lemma split_head_id sep s :
  Py.contains sep s = false -> Py.split_head sep s = s.
Proof.
  induction s as [|c s IH]; [reflexivity|]. simpl. intros Hc.
  apply orb_false_iff in Hc as [Hc Hs].
  rewrite split_head_cons, Hc, IH; done.
Qed.

(** C5 as stated fails: the source code keeps its capitals and the target
    code keeps its region subtag. *)
Lemma language_pair_not_normalized :
  language_pair "EN-US" "pt-BR" None = inr ("EN", "pt-BR") /\
  Py.lower "EN" <> "EN" /\
  Py.contains "-" "pt-BR" = true.
Proof. repeat split. discriminate. Qed.

(** C5, amended: the source code handed on is the explicit language
    argument when its lower-cased form is not "auto", otherwise the
    detected code, in both cases cut before the first hyphen (en-US
    becomes en) and not lower-cased; the target code is handed on exactly
    as given. *)
Theorem language_pair_spec language to detected :
  (Py.lower language <> "auto" ->
     language_pair language to detected = inr (Py.split_head "-" language, to)) /\
  (Py.lower language = "auto" ->
     forall d, detected = Some d ->
       language_pair language to detected = inr (Py.split_head "-" d, to)) /\
  (forall src to', language_pair language to detected = inr (src, to') ->
     to' = to /\ Py.contains "-" src = false /\
     exists code,
       (if String.eqb (Py.lower language) "auto" then detected = Some code
        else code = language) /\
       (code = src \/ exists rest, code = (src ++ "-" ++ rest)%string)).
Proof.
  unfold language_pair, source_code. split; [|split].
  - intros Hne. apply String.eqb_neq in Hne. by rewrite Hne.
  - intros Heq d ->. apply String.eqb_eq in Heq. by rewrite Heq.
  - intros src to'. destruct (String.eqb (Py.lower language) "auto").
    + destruct detected as [d|]; [|discriminate]. intros [= <- <-].
      split; [done|]. split; [apply split_head_no_sep|].
      exists d. split; [done|]. apply split_head_prefix.
    + intros [= <- <-].
      split; [done|]. split; [apply split_head_no_sep|].
      exists language. split; [done|]. apply split_head_prefix.
Qed.

(** ** Output paths *)

Lemma append_nil_r s : (s ++ "")%string = s.
Proof. induction s as [|c s IH]; simpl; congruence. Qed.

Lemma append_assoc s t u : ((s ++ t) ++ u = s ++ (t ++ u))%string.
Proof. induction s as [|c s IH]; simpl; congruence. Qed.

Lemma rfind_None c s : Py.rfind c s = None -> Py.contains c s = false.
Proof.
  induction s as [|a s IH]; simpl; [done|].
  destruct (Py.rfind c s); [discriminate|].
  destruct (Ascii.eqb a c); [discriminate|]. intros _. by apply IH.
Qed.

Lemma rfind_Some c s i :
  Py.rfind c s = Some i ->
  (i < String.length s)%nat /\
  s = (Py.slice_to i s ++ Py.slice_from i s)%string /\
  String.length (Py.slice_from i s) = (String.length s - i)%nat /\
  exists e, Py.slice_from i s = String c e /\ Py.contains c e = false.
Proof.
  revert i. induction s as [|a s IH]; intros i; simpl; [discriminate|].
  destruct (Py.rfind c s) as [j|] eqn:Hj.
  - intros [= <-]. destruct (IH j eq_refl) as (Hlt & Hs & Hlen & e & He & Hc).
    simpl. split; [lia|]. split; [congruence|]. split; [done|]. eauto.
  - destruct (Ascii.eqb a c) eqn:Ha; [|discriminate]. intros [= <-].
    apply Ascii.eqb_eq in Ha as ->. simpl.
    split; [lia|]. split; [done|]. split; [lia|].
    exists s. split; [done|]. by apply rfind_None.
Qed.

Lemma suffix_shape p :
  suffix p = EmptyString \/
  exists e, suffix p = String "." e /\ e <> EmptyString /\ Py.contains "." e = false.
Proof.
  unfold suffix. destruct (Py.rfind "." (name p)) as [i|] eqn:Hi; [|by left].
  destruct ((0 <? i)%nat && _) eqn:Hc; [|by left].
  apply andb_true_iff in Hc as [_ Hc]. apply Z.ltb_lt in Hc.
  destruct (rfind_Some _ _ _ Hi) as (Hlt & _ & Hlen & e & He & Hdot).
  right. exists e. split; [done|]. split; [|done].
  intros ->. rewrite He in Hlen. simpl in Hlen. lia.
Qed.

Lemma length_append a b :
  String.length (a ++ b)%string = (String.length a + String.length b)%nat.
Proof. induction a as [|c a IH]; simpl; congruence. Qed.

Lemma append_inj_r (s s' t : string) : (s ++ t = s' ++ t)%string -> s = s'.
Proof.
  intros Heq.
  assert (Hlen : String.length s = String.length s').
  { apply (f_equal String.length) in Heq. rewrite !length_append in Heq. lia. }
  revert s' Heq Hlen. induction s as [|c s IH]; intros [|c' s'] Heq Hlen;
    simpl in *; try discriminate; [reflexivity|].
  injection Heq as -> Heq. f_equal. apply IH; [done | lia].
Qed.

Lemma contains_rfind c s : Py.contains c s = false -> Py.rfind c s = None.
Proof.
  induction s as [|a s IH]; simpl; [done|]. intros Hc.
  apply orb_false_iff in Hc as [Ha Hs]. by rewrite (IH Hs), Ha.
Qed.

Lemma rfind_app c s e :
  Py.contains c e = false ->
  Py.rfind c (s ++ String c e)%string = Some (String.length s).
Proof.
  intros He. induction s as [|a s IH]; simpl.
  - by rewrite (contains_rfind c e He), Ascii.eqb_refl.
  - by rewrite IH.
Qed.

Lemma slice_to_app s t : Py.slice_to (String.length s) (s ++ t)%string = s.
Proof.
  induction s as [|a s IH]; simpl; [by destruct t | congruence].
Qed.

Lemma slice_from_app s t : Py.slice_from (String.length s) (s ++ t)%string = t.
Proof. induction s as [|a s IH]; simpl; [by destruct t | done]. Qed.

Lemma slice_to_length i s :
  (i <= String.length s)%nat -> String.length (Py.slice_to i s) = i.
Proof.
  revert s. induction i as [|i IH]; intros [|a s]; simpl; try lia.
  intros Hi. rewrite IH; lia.
Qed.

(** A file name [stem.ext] has the suffix [.ext]. *)
Lemma suffix_stem_ext p stem ext :
  name p = (stem ++ "." ++ ext)%string ->
  stem <> EmptyString -> ext <> EmptyString -> Py.contains "." ext = false ->
  suffix p = String "." ext.
Proof.
  intros Hn Hstem Hext Hdot. unfold suffix. rewrite Hn.
  change (stem ++ "." ++ ext)%string with (stem ++ String "." ext)%string.
  rewrite (rfind_app "." stem ext Hdot), slice_from_app, length_append.
  assert (0 < String.length stem)%nat by (destruct stem; simpl; [done|lia]).
  assert (0 < String.length ext)%nat by (destruct ext; simpl; [done|lia]).
  cbn [String.length].
  destruct (Nat.ltb_spec 0 (String.length stem)); [|lia].
  destruct (Z.ltb_spec (Z.of_nat (String.length stem))
              (Z.of_nat (String.length stem + S (String.length ext)) - 1));
    [reflexivity | lia].
Qed.

(** A file name that is not of the form [stem.ext] has no suffix. *)
Lemma suffix_none p :
  (forall stem ext, name p = (stem ++ "." ++ ext)%string ->
     Py.contains "." ext = false -> stem = EmptyString \/ ext = EmptyString) ->
  suffix p = EmptyString.
Proof.
  intros Hno. unfold suffix.
  destruct (Py.rfind "." (name p)) as [i|] eqn:Hi; [|done].
  destruct (rfind_Some _ _ _ Hi) as (Hlt & Hs & Hlen & e & He & Hdot).
  rewrite He in Hs, Hlen.
  destruct (Hno (Py.slice_to i (name p)) e Hs Hdot) as [Hstem|Hext].
  - assert (i = 0)%nat as ->.
    { rewrite <- (slice_to_length i (name p)) by lia. by rewrite Hstem. }
    reflexivity.
  - subst e. simpl in Hlen.
    destruct (Z.ltb_spec (Z.of_nat i) (Z.of_nat (String.length (name p)) - 1));
      [lia|]. by rewrite andb_false_r.
Qed.

Lemma with_suffix_empty_spec p :
  name p <> EmptyString ->
  exists base, with_suffix_empty p = inr base /\
               parent base = parent p /\
               name p = (name base ++ suffix p)%string.
Proof.
  intros Hname. unfold with_suffix_empty.
  apply String.eqb_neq in Hname. rewrite Hname.
  eexists. split; [reflexivity|]. simpl. split; [reflexivity|].
  rewrite !append_nil_r.
  destruct (String.eqb (suffix p) "") eqn:Hs.
  - apply String.eqb_eq in Hs. by rewrite Hs, append_nil_r.
  - apply String.eqb_neq in Hs. unfold suffix in *.
    destruct (Py.rfind "." (name p)) as [i|] eqn:Hi; [|done].
    destruct ((0 <? i)%nat && _); [|done].
    destruct (rfind_Some _ _ _ Hi) as (Hlt & Heq & Hlen & _).
    rewrite Hlen.
    replace (String.length (name p) - (String.length (name p) - i))%nat
      with i by lia.
    exact Heq.
Qed.

Section MainFacts.
Context `{Argos}.
Context {seconds : Type} (timedelta_seconds : seconds -> timedelta).
Variable srt_compose : list Subtitle -> string.
Variable srt_parse : string -> Exception + list Subtitle.

Local Abbreviation main_argos' :=
  (main_argos seconds timedelta_seconds srt_compose srt_parse).
Local Abbreviation main_opus' :=
  (main_opus seconds timedelta_seconds srt_compose srt_parse).

Lemma ensure_files src tgt st r st' :
  ensure src tgt st = (r, st') -> files st' = files st.
Proof.
  unfold ensure. destruct (ensure_argos_pair src tgt (world st)) as [r0 w].
  by intros [= <- <-].
Qed.

Lemma translate_srt_outcome in_srt out_srt translator st r st' :
  translate_srt srt_compose srt_parse in_srt out_srt translator st = (r, st') ->
  (r = inr tt /\ exists d', files st' = <[out_srt := srt_compose d']> (files st)) \/
  ((exists e, r = inl e) /\ files st' = files st).
Proof.
  unfold translate_srt, bind, read_file, lift.
  destruct (files st !! in_srt) as [text|]; [|intros [= <- <-]; right; eauto].
  destruct (srt_parse text) as [e|d]; simpl; intros [= <- <-]; [right|left]; eauto.
Qed.

Lemma translate_srt_opus_outcome in_srt out_srt engine src tgt bs st r st' :
  translate_srt_opus srt_compose srt_parse in_srt out_srt engine src tgt bs st
  = (r, st') ->
  (r = inr tt /\ exists d', files st' = <[out_srt := srt_compose d']> (files st)) \/
  ((exists e, r = inl e) /\ files st' = files st).
Proof.
  unfold translate_srt_opus, bind, read_file, lift.
  destruct (files st !! in_srt) as [text|]; [|intros [= <- <-]; right; eauto].
  destruct (srt_parse text) as [e|d]; simpl; [intros [= <- <-]; right; eauto|].
  destruct (translate_subs_opus engine src tgt bs d) as [e|d']; simpl;
    intros [= <- <-]; [right|left]; eauto.
Qed.

Lemma main_argos_writes args video_exists transcription st r st' outs :
  output_paths (video args) (to args) = inr outs ->
  main_argos' args video_exists transcription st = (r, st') ->
  writes_only seconds timedelta_seconds srt_compose
    (fst outs) (snd outs) transcription st r st'.
Proof.
  intros Houts. unfold main_argos, writes_only.
  destruct video_exists; simpl; [|intros [= <- <-]; split; [done|discriminate]].
  unfold bind at 1. rewrite Houts. simpl.
  unfold bind at 1. destruct transcription as [e|[segments detected]]; simpl;
    [intros [= <- <-]; split; [done|discriminate]|].
  unfold bind at 1. unfold write_srt at 1, write_file at 1.
  set (st1 := wrote st (fst outs) _).
  assert (Hst1 : forall p, p <> fst outs -> files st1 !! p = files st !! p).
  { intros p Hp. subst st1. simpl. by rewrite lookup_insert_ne. }
  unfold bind at 1.
  destruct (language_pair (language args) (to args) detected) as [e|pair]; simpl;
    [intros [= <- <-]; split; [auto|discriminate]|].
  unfold bind at 1.
  destruct (ensure (fst pair) (snd pair) st1) as [[e|translator] st2] eqn:Hens.
  - apply ensure_files in Hens. intros [= <- <-]. rewrite Hens.
    split; [auto|discriminate].
  - apply ensure_files in Hens. intros Hrun.
    apply translate_srt_outcome in Hrun as [[-> [d' Hd']]|[[e ->] Hsame]].
    + rewrite Hd', Hens. split.
      * intros p Hp1 Hp2. rewrite lookup_insert_ne by done. auto.
      * intros _. by exists segments, detected, d'.
    + rewrite Hsame, Hens. split; [auto|discriminate].
Qed.

Lemma main_opus_writes opus args video_exists transcription st r st' outs :
  output_paths (video args) (to args) = inr outs ->
  main_opus' opus args video_exists transcription st = (r, st') ->
  writes_only seconds timedelta_seconds srt_compose
    (fst outs) (snd outs) transcription st r st'.
Proof.
  intros Houts. unfold main_opus, writes_only.
  destruct video_exists; simpl; [|intros [= <- <-]; split; [done|discriminate]].
  unfold bind at 1. rewrite Houts. simpl.
  unfold bind at 1. destruct transcription as [e|[segments detected]]; simpl;
    [intros [= <- <-]; split; [done|discriminate]|].
  unfold bind at 1. unfold write_srt at 1, write_file at 1.
  set (st1 := wrote st (fst outs) _).
  assert (Hst1 : forall p, p <> fst outs -> files st1 !! p = files st !! p).
  { intros p Hp. subst st1. simpl. by rewrite lookup_insert_ne. }
  unfold bind at 1.
  destruct (language_pair (language args) (to args) detected) as [e|pair]; simpl;
    [intros [= <- <-]; split; [auto|discriminate]|].
  unfold bind at 1. destruct opus as [e|engine]; simpl;
    [intros [= <- <-]; split; [auto|discriminate]|].
  intros Hrun.
  apply translate_srt_opus_outcome in Hrun as [[-> [d' Hd']]|[[e ->] Hsame]].
  - rewrite Hd'. split.
    + intros p Hp1 Hp2. rewrite lookup_insert_ne by done. auto.
    + intros _. by exists segments, detected, d'.
  - rewrite Hsame. split; [auto|discriminate].
Qed.


End MainFacts.

(** ** The batch backend *)

Lemma batches_concat size fuel (sentences : list string) :
  (0 < size)%nat ->
  (length sentences <= fuel)%nat ->
  concat (BatchBackend.batches fuel size sentences) = sentences.
Proof.
  intros Hsize. revert sentences.
  induction fuel as [|fuel IH]; intros [|s rest] Hlen; simpl in *;
    [done | lia | done |].
  destruct size as [|size]; [lia|]. simpl.
  rewrite IH; [by rewrite take_drop|].
  rewrite length_drop. lia.
Qed.

Lemma batch_translate_map translate_sentence sentences src tgt batch_size :
  (0 < batch_size)%Z ->
  BatchBackend.translate translate_sentence sentences src tgt batch_size
  = inr (map (translate_sentence src tgt) sentences).
Proof.
  intros Hpos. unfold BatchBackend.translate, BatchBackend.translate_batch.
  destruct (Z.leb_spec batch_size 0) as [Hle|_]; [lia|].
  rewrite <- concat_map, batches_concat; [done | lia | done].
Qed.

Lemma assign_loop_pointwise (g : Subtitle -> string) i subs translated :
  (forall k sub, subs !! k = Some sub -> translated !! (i + k)%nat = Some (g sub)) ->
  assign_loop i subs translated
  = inr (map (fun sub => set_content sub (g sub)) subs).
Proof.
  revert i. induction subs as [|sub rest IH]; intros i Hg; simpl; [done|].
  rewrite <- (Nat.add_0_r i) at 1. rewrite (Hg 0%nat sub eq_refl).
  rewrite IH; [done|]. intros k sub' Hk.
  replace (S i + k)%nat with (i + S k)%nat by lia. by apply Hg.
Qed.

(** C6: for every list of sentences and every positive batch size the
    batch backend returns a list of the same length whose i-th element is
    the translation of the i-th sentence, whatever the batch size; and
    [translate_srt_opus] then gives entry i the translation of its own
    content. *)
Theorem batch_translate_aligned
    (translate_sentence : string -> string -> string -> string)
    (sentences : list string) (src tgt : string) (batch_size : Z) :
  (0 < batch_size)%Z ->
  exists translated,
    BatchBackend.translate translate_sentence sentences src tgt batch_size
    = inr translated /\
    length translated = length sentences /\
    (forall i s, sentences !! i = Some s ->
       translated !! i = Some (translate_sentence src tgt s)) /\
    (forall other_size, (0 < other_size)%Z ->
       BatchBackend.translate translate_sentence sentences src tgt other_size
       = inr translated) /\
    (forall subs, sentences = sentences_of subs ->
       translate_subs_opus (BatchBackend.translate translate_sentence)
         src tgt batch_size subs
       = inr (map (fun sub =>
                     set_content sub (translate_sentence src tgt (content sub)))
                subs)).
Proof.
  intros Hpos. exists (map (translate_sentence src tgt) sentences).
  split; [by apply batch_translate_map|].
  split; [apply length_map|].
  split; [intros i s Hi; by rewrite list_lookup_fmap, Hi|].
  split; [intros other Hother; by apply batch_translate_map|].
  intros subs ->. unfold translate_subs_opus.
  rewrite batch_translate_map by done.
  apply assign_loop_pointwise. intros k sub Hk. simpl.
  unfold sentences_of. by rewrite !list_lookup_fmap, Hk.
Qed.

(** ** SrtCodec: parsing what was composed *)

Section RoundTrip.
Import SrtCodec.

Lemma contains_app sep a b :
  Py.contains sep (a ++ b)%string = Py.contains sep a || Py.contains sep b.
Proof. induction a as [|c a IH]; simpl; [done|]. by rewrite IH, orb_assoc. Qed.

Lemma numeral_no_sep sep d :
  uint_of_char sep (Some Decimal.Nil) = None ->
  Py.contains sep (NilEmpty.string_of_uint d) = false.
Proof.
  intros Hsep.
  induction d; cbn [NilEmpty.string_of_uint Py.contains]; [done|..];
    rewrite IHd, orb_false_r;
    match goal with
    | |- Ascii.eqb ?c sep = false =>
        destruct (Ascii.eqb_spec c sep) as [<-|]; [discriminate Hsep | done]
    end.
Qed.

Lemma zeros_no_sep sep k :
  uint_of_char sep (Some Decimal.Nil) = None -> Py.contains sep (zeros k) = false.
Proof.
  intros Hsep. induction k; cbn [zeros Py.contains]; [done|].
  rewrite IHk, orb_false_r.
  destruct (Ascii.eqb_spec "0"%char sep) as [<-|]; [discriminate Hsep | done].
Qed.

Lemma zfill_no_sep sep w n :
  uint_of_char sep (Some Decimal.Nil) = None ->
  Py.contains sep (zfill w (show_N n)) = false.
Proof.
  intros Hsep. unfold zfill, show_N.
  by rewrite contains_app, zeros_no_sep, numeral_no_sep.
Qed.

Lemma show_N_nonempty n : show_N n <> EmptyString.
Proof.
  unfold show_N. intros Hs.
  pose proof (NilEmpty.usu (N.to_uint n)) as Hu. rewrite Hs in Hu. simpl in Hu.
  injection Hu as Hu. pose proof (DecimalN.Unsigned.of_to n) as Hn.
  rewrite <- Hu in Hn. simpl in Hn. subst n. discriminate Hs.
Qed.

Lemma show_nat_nonempty n : show_nat n <> EmptyString.
Proof.
  unfold show_nat. intros Hs.
  pose proof (NilEmpty.usu (Nat.to_uint n)) as Hu. rewrite Hs in Hu. simpl in Hu.
  injection Hu as Hu. pose proof (DecimalNat.Unsigned.of_to n) as Hn.
  rewrite <- Hu in Hn. simpl in Hn. subst n. discriminate Hs.
Qed.

Lemma read_nat_show n : read_nat (show_nat n) = Some n.
Proof.
  unfold read_nat, read_uint. pose proof (show_nat_nonempty n) as Hne.
  destruct (show_nat n) eqn:Hs; [done|]. rewrite <- Hs. unfold show_nat.
  rewrite NilEmpty.usu. simpl. by rewrite DecimalNat.Unsigned.of_to.
Qed.

Lemma read_uint_zeros k s d :
  s <> EmptyString ->
  NilEmpty.uint_of_string s = Some d ->
  exists d', read_uint (zeros k ++ s)%string = Some d' /\ N.of_uint d' = N.of_uint d.
Proof.
  intros Hne Hd. induction k as [|k (d' & Hd' & Hn)]; simpl.
  - exists d. split; [|done]. unfold read_uint. by destruct s.
  - exists (Decimal.D0 d'). split; [|done].
    unfold read_uint in *. destruct (zeros k ++ s)%string eqn:Hz; [done|].
    simpl in *. by rewrite Hd'.
Qed.

Lemma read_N_zfill w n : read_N (zfill w (show_N n)) = Some n.
Proof.
  unfold read_N, zfill.
  destruct (read_uint_zeros (w - String.length (show_N n)) (show_N n) (N.to_uint n)
              (show_N_nonempty n) (NilEmpty.usu _)) as (d' & -> & Hd').
  simpl. by rewrite Hd', DecimalN.Unsigned.of_to.
Qed.

Lemma length_zeros k : String.length (zeros k) = k.
Proof. induction k; simpl; congruence. Qed.

Lemma zfill_length w s :
  String.length (zfill w s) = (w - String.length s + String.length s)%nat.
Proof. unfold zfill. by rewrite length_append, length_zeros. Qed.

Lemma small_numerals :
  forallb (fun k => let l := String.length (show_N (N.of_nat k)) in
                    (l <=? 3)%nat && ((100 <=? k)%nat || (l <=? 2)%nat))
    (seq 0 1000) = true.
Proof. vm_compute. reflexivity. Qed.

Lemma show_N_length n :
  (n < 1000)%N ->
  (String.length (show_N n) <= 3)%nat /\
  ((n < 100)%N -> (String.length (show_N n) <= 2)%nat).
Proof.
  intros Hn. pose proof small_numerals as Hall.
  rewrite forallb_forall in Hall. specialize (Hall (N.to_nat n)).
  rewrite N2Nat.id in Hall. cbv zeta in Hall.
  apply andb_true_iff in Hall as [H3 H2]; [|apply in_seq; lia].
  apply Nat.leb_le in H3. split; [done|]. intros Hlt.
  apply orb_true_iff in H2 as [H2|H2]; [apply Nat.leb_le in H2; lia|].
  by apply Nat.leb_le in H2.
Qed.

Lemma zfill2_length n :
  (n < 100)%N -> String.length (zfill 2 (show_N n)) = 2%nat.
Proof.
  intros Hn. rewrite zfill_length.
  destruct (show_N_length n) as [_ H2]; [lia|]. specialize (H2 Hn). lia.
Qed.

Lemma zfill3_length n :
  (n < 1000)%N -> String.length (zfill 3 (show_N n)) = 3%nat.
Proof.
  intros Hn. rewrite zfill_length.
  destruct (show_N_length n) as [H3 _]; [lia|]. lia.
Qed.

Lemma zfill2_min n : (2 <= String.length (zfill 2 (show_N n)))%nat.
Proof. rewrite zfill_length. lia. Qed.

Lemma split_app_sep sep a b :
  Py.split sep (a ++ String sep b)%string = Py.split sep a ++ Py.split sep b.
Proof.
  induction a as [|c a IH]; cbn [String.append Py.split].
  - by rewrite Ascii.eqb_refl.
  - destruct (Ascii.eqb c sep); [by rewrite IH|]. rewrite IH.
    destruct (split_nonempty sep a) as (w & ws & ->). reflexivity.
Qed.

Lemma split_no_sep sep s : Py.contains sep s = false -> Py.split sep s = [s].
Proof.
  induction s as [|c s IH]; cbn [Py.contains Py.split]; [done|].
  intros Hc. apply orb_false_iff in Hc as [-> Hs]. by rewrite IH.
Qed.

Lemma join_cons sep p q rest :
  join sep (p :: q :: rest) = (p ++ sep ++ join sep (q :: rest))%string.
Proof. reflexivity. Qed.

Lemma join_split sep s : join (String sep EmptyString) (Py.split sep s) = s.
Proof.
  induction s as [|c s IH]; cbn [Py.split]; [done|].
  destruct (split_nonempty sep s) as (w & ws & Hs). rewrite Hs in *.
  destruct (Ascii.eqb_spec c sep) as [->|Hne].
  - rewrite join_cons, IH. reflexivity.
  - destruct ws as [|w' ws].
    + simpl in *. by rewrite IH.
    + rewrite join_cons in *. simpl. by rewrite <- IH.
Qed.

Lemma time_fields ms :
  let h := (ms / 3600000)%N in
  let m := ((ms / 60000) mod 60)%N in
  let s := ((ms / 1000) mod 60)%N in
  let r := (ms mod 1000)%N in
  (m < 60 /\ s < 60 /\ r < 1000 /\ ((h * 60 + m) * 60 + s) * 1000 + r = ms)%N.
Proof.
  cbv zeta. repeat split; try (apply N.mod_lt; lia).
  zify. Z.to_euclidean_division_equations. lia.
Qed.

Lemma timestamp_fields t :
  exists hh mm ss mmm,
    timestamp t = (hh ++ ":" ++ mm ++ ":" ++ ss ++ "," ++ mmm)%string /\
    (forall sep, uint_of_char sep (Some Decimal.Nil) = None ->
       Py.contains sep hh = false /\ Py.contains sep mm = false /\
       Py.contains sep ss = false /\ Py.contains sep mmm = false) /\
    (2 <= String.length hh)%nat /\ String.length mm = 2%nat /\
    String.length ss = 2%nat /\ String.length mmm = 3%nat /\
    exists h m s r,
      read_N hh = Some h /\ read_N mm = Some m /\ read_N ss = Some s /\
      read_N mmm = Some r /\
      (((h * 60 + m) * 60 + s) * 1000 + r)%N = Z.to_N (t / 1000).
Proof.
  unfold timestamp. set (ms := Z.to_N (t / 1000)).
  destruct (time_fields ms) as (Hm & Hs & Hr & Hsum).
  do 4 eexists. split; [reflexivity|].
  split; [intros sep Hsep; by rewrite !zfill_no_sep|].
  split; [apply zfill2_min|].
  split; [apply zfill2_length; lia|].
  split; [apply zfill2_length; lia|].
  split; [apply zfill3_length; lia|].
  do 4 eexists. rewrite !read_N_zfill. repeat split. exact Hsum.
Qed.

Lemma read_timestamp_timestamp t :
  (0 <= t)%Z -> read_timestamp (timestamp t) = Some (t / 1000 * 1000)%Z.
Proof.
  intros Ht.
  destruct (timestamp_fields t)
    as (hh & mm & ss & mmm & -> & Hsep & Lh & Lm & Ls & Lr
        & h & m & s & r & Rh & Rm & Rs & Rr & Hsum).
  destruct (Hsep ":"%char eq_refl) as (Ch & Cm & Cs & Cr).
  destruct (Hsep ","%char eq_refl) as (_ & _ & Ks & _).
  unfold read_timestamp.
  change (hh ++ ":" ++ mm ++ ":" ++ ss ++ "," ++ mmm)%string
    with (hh ++ String ":" (mm ++ String ":" (ss ++ String "," mmm)))%string.
  rewrite !split_app_sep, (split_no_sep _ hh Ch), (split_no_sep _ mm Cm).
  rewrite (split_no_sep ":" (ss ++ String "," mmm)%string)
    by (rewrite contains_app, Cs; cbn [Py.contains]; by rewrite Cr).
  cbn [app]. rewrite split_app_sep, (split_no_sep _ ss Ks).
  destruct (Hsep ","%char eq_refl) as (_ & _ & _ & Kr).
  rewrite (split_no_sep _ mmm Kr). cbn [app].
  rewrite Lm, Ls, Lr, Rh, Rm, Rs, Rr.
  apply Nat.leb_le in Lh. rewrite Lh. cbn [andb Nat.eqb].
  rewrite Hsum, Z2N.id; [done|]. apply Z.div_pos; lia.
Qed.

Lemma timestamp_no_sep sep t :
  uint_of_char sep (Some Decimal.Nil) = None ->
  sep <> ":"%char -> sep <> ","%char ->
  Py.contains sep (timestamp t) = false.
Proof.
  intros Hsep Hcolon Hcomma.
  destruct (timestamp_fields t) as (hh & mm & ss & mmm & -> & Hnone & _).
  destruct (Hnone sep Hsep) as (Ch & Cm & Cs & Cr).
  apply Ascii.eqb_neq in Hcolon, Hcomma.
  rewrite (Ascii.eqb_sym sep) in Hcolon, Hcomma.
  rewrite !contains_app, Ch, Cm, Cs, Cr. cbn [Py.contains orb].
  by rewrite Hcolon, Hcomma.
Qed.

Lemma read_times_line sub :
  (0 <= start sub)%Z -> (0 <= end_ sub)%Z ->
  read_times (times_line sub)
  = Some ((start sub / 1000 * 1000)%Z, (end_ sub / 1000 * 1000)%Z).
Proof.
  intros Hs He. unfold read_times, times_line.
  change (timestamp (start sub) ++ " --> " ++ timestamp (end_ sub))%string
    with (timestamp (start sub)
            ++ String " " ("-->" ++ String " " (timestamp (end_ sub))))%string.
  rewrite !split_app_sep.
  rewrite !(split_no_sep " " (timestamp _)) by (by apply timestamp_no_sep).
  cbn -[read_timestamp timestamp].
  by rewrite !read_timestamp_timestamp.
Qed.

Lemma times_line_no_newline sub : Py.contains newline (times_line sub) = false.
Proof.
  unfold times_line. rewrite !contains_app.
  rewrite !timestamp_no_sep by done. reflexivity.
Qed.

Lemma times_line_nonempty sub : times_line sub <> EmptyString.
Proof.
  unfold times_line. intros Heq.
  apply (f_equal String.length) in Heq. rewrite !length_append in Heq.
  simpl in Heq. lia.
Qed.

Lemma chomp_newlines s : exists k, s = (chomp s ++ newlines k)%string.
Proof.
  induction s as [|c s [k IH]]; [by exists 0%nat|]. cbn [chomp].
  destruct (chomp s) as [|a r] eqn:Hr.
  - destruct (Ascii.eqb_spec c newline) as [->|Hne].
    + exists (S k). simpl in *. by rewrite <- IH.
    + exists k. simpl in *. by rewrite <- IH.
  - exists k. simpl in *. by rewrite <- IH.
Qed.

Lemma split_newlines k :
  Py.split newline (newlines k) = replicate (S k) EmptyString.
Proof.
  induction k as [|k IH]; [reflexivity|].
  cbn [newlines Py.split]. by rewrite Ascii.eqb_refl, IH.
Qed.

Lemma split_app_newlines s k :
  Py.split newline (s ++ newlines k)%string
  = Py.split newline s ++ replicate k EmptyString.
Proof.
  destruct k as [|k]; cbn [newlines].
  - by rewrite append_nil_r, app_nil_r.
  - by rewrite split_app_sep, split_newlines.
Qed.

Lemma rstrip_newlines s k : Py.rstrip (s ++ newlines k)%string = Py.rstrip s.
Proof.
  induction s as [|c s IH]; cbn [String.append Py.rstrip].
  - induction k as [|k IHk]; [reflexivity|]. cbn [newlines Py.rstrip].
    by rewrite IHk.
  - by rewrite IH.
Qed.

Lemma block_lines_split sub :
  exists k,
    Py.split newline (block sub)
    = block_lines sub ++ replicate k EmptyString ++ [EmptyString].
Proof.
  destruct (chomp_newlines (content sub)) as [k Hk]. exists k.
  unfold block, block_lines, nl.
  change (show_nat (index sub) ++ String newline "" ++ times_line sub
            ++ String newline "" ++ content sub ++ String newline "")%string
    with (show_nat (index sub)
            ++ String newline (times_line sub
                 ++ String newline (content sub ++ String newline "")))%string.
  rewrite !split_app_sep.
  rewrite (split_no_sep _ (show_nat _)) by (by apply numeral_no_sep).
  rewrite (split_no_sep _ (times_line _)) by apply times_line_no_newline.
  rewrite Hk at 1. rewrite split_app_newlines, <- app_assoc. reflexivity.
Qed.

Lemma compose_cons sub d :
  compose (sub :: d)
  = match d with
    | [] => block sub
    | _ => (block sub ++ String newline (compose d))%string
    end.
Proof. destruct d; reflexivity. Qed.

Lemma blocks_nonblank cur ls rest :
  Forall (fun l => l <> EmptyString) ls ->
  blocks cur (ls ++ rest) = blocks (cur ++ ls) rest.
Proof.
  intros Hls. revert cur.
  induction Hls as [|l ls Hl _ IH]; intros cur; cbn [app blocks].
  - by rewrite app_nil_r.
  - apply String.eqb_neq in Hl. rewrite Hl, IH, <- app_assoc. reflexivity.
Qed.

Lemma block_lines_nonblank sub :
  valid_entry sub -> Forall (fun l => l <> EmptyString) (block_lines sub).
Proof.
  intros (_ & _ & Hc). unfold block_lines.
  constructor; [apply show_nat_nonempty|].
  constructor; [apply times_line_nonempty | exact Hc].
Qed.

Lemma flush_block_lines sub : flush (block_lines sub) = [block_lines sub].
Proof. reflexivity. Qed.

Lemma blocks_blank cur rest :
  blocks cur (EmptyString :: rest) = flush cur ++ blocks [] rest.
Proof. reflexivity. Qed.

Lemma blocks_blanks k cur rest :
  blocks cur (replicate k EmptyString ++ EmptyString :: rest)
  = flush cur ++ blocks [] rest.
Proof.
  revert cur. induction k as [|k IH]; intros cur; cbn [replicate app].
  - apply blocks_blank.
  - by rewrite blocks_blank, IH.
Qed.

Lemma blocks_block sub rest :
  valid_entry sub ->
  blocks [] (Py.split newline (block sub) ++ rest)
  = block_lines sub :: blocks [] rest.
Proof.
  intros Hsub. destruct (block_lines_split sub) as [k ->].
  rewrite <- !app_assoc, blocks_nonblank by by apply block_lines_nonblank.
  change ([] ++ block_lines sub) with (block_lines sub).
  cbn [app]. by rewrite blocks_blanks, flush_block_lines.
Qed.

Lemma blocks_compose d :
  valid_document d ->
  blocks [] (Py.split newline (compose d)) = map block_lines d.
Proof.
  induction 1 as [|sub d Hsub Hd IH]; [reflexivity|].
  rewrite compose_cons. destruct d as [|sub' d'].
  - rewrite <- (app_nil_r (Py.split newline (block sub))).
    by rewrite blocks_block.
  - by rewrite split_app_sep, blocks_block, IH.
Qed.

Lemma parse_block_lines sub :
  valid_entry sub -> parse_block (block_lines sub) = inr (to_milliseconds sub).
Proof.
  intros (Hs & He & Hc). unfold block_lines, parse_block.
  destruct (split_nonempty newline (chomp (content sub))) as (c & cs & Hsplit).
  rewrite Hsplit, read_nat_show, read_times_line by done.
  unfold to_milliseconds. do 2 f_equal.
  rewrite <- Hsplit. apply join_split.
Qed.

Lemma parse_blocks_lines d :
  valid_document d ->
  parse_blocks (map block_lines d) = inr (map to_milliseconds d).
Proof.
  induction 1 as [|sub d Hsub Hd IH]; [reflexivity|].
  cbn [map parse_blocks]. by rewrite parse_block_lines, IH.
Qed.

Lemma to_milliseconds_equal sub : entry_equal (to_milliseconds sub) sub.
Proof.
  unfold entry_equal, to_milliseconds, milliseconds. simpl.
  rewrite !Z.div_mul by lia. repeat split.
  destruct (chomp_newlines (content sub)) as [k Hk].
  rewrite Hk at 2. by rewrite rstrip_newlines.
Qed.

(** C4: for every valid document [d] (times not negative, every content
    made of one or more non-blank lines, possibly followed by newlines)
    parsing the composed text succeeds and yields [d] with its times cut
    to whole milliseconds and the newlines at the end of each content
    dropped: the same indices, the same timestamps to the millisecond,
    equal content up to trailing white space; so [translate_srt] reading
    a file that holds the composed text works on that document. *)
Theorem parse_compose_round_trip `{Argos} d :
  valid_document d ->
  parse (compose d) = inr (map to_milliseconds d) /\
  Forall2 entry_equal (map to_milliseconds d) d /\
  (forall (st : State) in_srt out_srt translator,
     let st1 := wrote st in_srt (compose d) in
     translate_srt compose parse in_srt out_srt translator st1
     = (inr tt,
        wrote st1 out_srt
          (compose (translate_loop (translate translator)
                      (map to_milliseconds d))))).
Proof.
  intros Hd.
  assert (Hparse : parse (compose d) = inr (map to_milliseconds d)).
  { unfold parse. by rewrite blocks_compose, parse_blocks_lines. }
  split; [exact Hparse|]. split.
  - clear. induction d; constructor; [apply to_milliseconds_equal | done].
  - intros st in_srt out_srt translator st1.
    apply (translate_srt_run compose parse in_srt out_srt translator st1
             (compose d) (map to_milliseconds d)); [|exact Hparse].
    subst st1. simpl. apply lookup_insert_eq.
Qed.

End RoundTrip.

(** ** Failure paths *)

Lemma assign_loop_short i subs (translated : list string) :
  (i <= length translated)%nat ->
  (length translated < i + length subs)%nat ->
  assign_loop i subs translated = inl IndexError.
Proof.
  revert i. induction subs as [|sub rest IH]; intros i Hle Hlt; simpl in *; [lia|].
  destruct (translated !! i) as [t|] eqn:Ht; [|reflexivity].
  apply lookup_lt_Some in Ht. rewrite IH; [reflexivity | lia | lia].
Qed.

Section FailureFacts.
Context `{Argos}.
Context {seconds : Type} (timedelta_seconds : seconds -> timedelta).
Variable srt_compose : list Subtitle -> string.
Variable srt_parse : string -> Exception + list Subtitle.

(** X2: [ensure_argos_pair] only adds to the record of outside calls, and
    what it adds is a prefix of: catalog query, one download, one
    install. *)
Theorem ensure_argos_pair_ops src_lang tgt_lang (w : World) :
  exists new,
    ops (snd (ensure_argos_pair src_lang tgt_lang w)) = ops w ++ new /\
    (new = [] \/ new = [OpCatalog] \/
     (exists pkg, new = [OpCatalog; OpDownload pkg]) \/
     (exists pkg model_path,
        new = [OpCatalog; OpDownload pkg; OpInstall model_path])).
Proof.
  unfold ensure_argos_pair, try_install.
  destruct (load_translator src_lang tgt_lang w).
  { exists []. simpl. rewrite app_nil_r. auto. }
  simpl. destruct (available w) as [e|pkgs].
  { exists [OpCatalog]. simpl. auto. }
  destruct (available_of pkgs !! pair_key src_lang tgt_lang) as [pkg|].
  2: { exists [OpCatalog]. simpl. auto. }
  destruct (download pkg) as [e|model_path].
  { exists [OpCatalog; OpDownload pkg]. simpl. split.
    - by rewrite <- app_assoc.
    - right. right. left. by exists pkg. }
  simpl. exists [OpCatalog; OpDownload pkg; OpInstall model_path]. split.
  - destruct (install_from_path model_path (installed w)) as [e|reg]; simpl.
    + by rewrite <- !app_assoc.
    + destruct (load_translator _ _ _); simpl; by rewrite <- !app_assoc.
  - right. right. right. by exists pkg, model_path.
Qed.

(** X3: when the engine answers with fewer sentences than the document has
    entries, [translate_srt_opus] raises [IndexError] and writes nothing. *)
Theorem translate_srt_opus_short_answer in_srt out_srt engine src tgt bs
    (st : State) text d translated :
  files st !! in_srt = Some text ->
  srt_parse text = inr d ->
  engine (sentences_of d) src tgt bs = inr translated ->
  (length translated < length d)%nat ->
  translate_srt_opus srt_compose srt_parse in_srt out_srt engine src tgt bs st
  = (inl IndexError, st).
Proof.
  intros Hin Hd Heng Hlen.
  rewrite (translate_srt_opus_run srt_compose srt_parse
             in_srt out_srt engine src tgt bs st text d Hin Hd).
  unfold translate_subs_opus. rewrite Heng.
  rewrite assign_loop_short; [reflexivity | lia | simpl; lia].
Qed.


End FailureFacts.

(** ** Runs on concrete inputs *)

(** C3 does not hold of the code, which looks the pair up under the
    joined key [from-to] instead of comparing the two codes: the catalog
    holds only the package ("a-b", "c"); asked for ("a", "b-c"), which no
    catalog entry has, [ensure_argos_pair] finds the key "a-b-c",
    downloads and installs that package, and ends with "still
    unavailable" where the claim has "no package found" and no install. *)
Lemma ensure_argos_pair_key_collision :
  let w := Demo.world_empty Demo.lib [("a-b", "c")] in
  @load_translator Demo.lib "a" "b-c" w = None /\
  Forall (fun pkg : string * string => ~ (fst pkg = "a" /\ snd pkg = "b-c"))
    [("a-b", "c")] /\
  @ensure_argos_pair Demo.lib "a" "b-c" w
  = (inl (StillUnavailable "a" "b-c"),
     @mkWorld Demo.lib [("a-b", ["c"]); ("c", [])] (inr [("a-b", "c")])
       [@OpCatalog Demo.lib; @OpDownload Demo.lib ("a-b", "c");
        @OpInstall Demo.lib ("a-b", "c")]).
Proof.
  cbv zeta. split; [reflexivity|]. split; [|reflexivity].
  constructor; [|constructor]. intros [Hfrom _]. discriminate Hfrom.
Qed.

Lemma translation_keeps_frame_witness :
  files Demo.state !! "in.srt" = Some (SrtCodec.compose Demo.document) /\
  SrtCodec.parse (SrtCodec.compose Demo.document) = inr Demo.document /\
  exists d',
    @translate_srt Demo.lib SrtCodec.compose SrtCodec.parse
      "in.srt" "out.srt" ("fr", "en") Demo.state
    = (inr tt, wrote Demo.state "out.srt" (SrtCodec.compose d')) /\
    Forall2 same_frame Demo.document d'.
Proof.
  assert (Hin : files Demo.state !! "in.srt" = Some (SrtCodec.compose Demo.document))
    by reflexivity.
  assert (Hd : SrtCodec.parse (SrtCodec.compose Demo.document) = inr Demo.document)
    by reflexivity.
  split; [exact Hin|]. split; [exact Hd|].
  destruct (@translation_keeps_frame Demo.lib SrtCodec.compose SrtCodec.parse
              "in.srt" "out.srt" Demo.state _ _ Hin Hd) as [Hargos _].
  destruct (Hargos ("fr", "en")) as (d' & Hrun & Hframe & _).
  exists d'. split; [exact Hrun | exact Hframe].
Defined.

Lemma ensure_argos_pair_idempotent_witness :
  @ensure_argos_pair Demo.lib "fr" "en" Demo.world_installed
  = (inr ("fr", "en"), Demo.world_installed).
Proof.
  apply (proj1 (@ensure_argos_pair_idempotent Demo.lib "fr" "en"
                  Demo.world_installed)).
  reflexivity.
Defined.

Lemma ensure_argos_pair_still_unavailable_witness :
  let w := Demo.world_empty Demo.lib_silent [("fr", "en")] in
  @ensure_argos_pair Demo.lib_silent "fr" "en" w
  = (inl (StillUnavailable "fr" "en"),
     @mkWorld Demo.lib_silent [] (inr [("fr", "en")])
       [@OpCatalog Demo.lib_silent; @OpDownload Demo.lib_silent ("fr", "en");
        @OpInstall Demo.lib_silent ("fr", "en")]).
Proof.
  cbv zeta.
  apply (proj2 (@ensure_argos_pair_still_unavailable Demo.lib_silent "fr" "en"
                  (Demo.world_empty Demo.lib_silent [("fr", "en")])
                  [("fr", "en")] ("fr", "en") ("fr", "en") []
                  eq_refl eq_refl eq_refl eq_refl eq_refl)).
  reflexivity.
Defined.

Lemma language_pair_spec_witness :
  language_pair "en-US" "id" None = inr ("en", "id") /\
  language_pair "auto" "id" (Some "pt-BR") = inr ("pt", "id").
Proof.
  split.
  - apply (proj1 (language_pair_spec "en-US" "id" None)). discriminate.
  - apply (proj1 (proj2 (language_pair_spec "auto" "id" (Some "pt-BR")))
             eq_refl "pt-BR" eq_refl).
Defined.


Lemma batch_translate_aligned_witness :
  exists translated,
    BatchBackend.translate Demo.tag ["a"; "b"; "c"] "en" "id" 2%Z = inr translated /\
    length translated = 3%nat.
Proof.
  destruct (batch_translate_aligned Demo.tag ["a"; "b"; "c"] "en" "id" 2%Z eq_refl)
    as (translated & Hrun & Hlen & _).
  exists translated. split; [exact Hrun | exact Hlen].
Defined.

Lemma parse_compose_round_trip_witness :
  SrtCodec.valid_document Demo.document /\
  SrtCodec.parse (SrtCodec.compose Demo.document)
  = inr (map SrtCodec.to_milliseconds Demo.document).
Proof.
  assert (Hvalid : SrtCodec.valid_document Demo.document).
  { repeat constructor; simpl; try lia; discriminate. }
  split; [exact Hvalid|].
  exact (proj1 (@parse_compose_round_trip Demo.lib Demo.document Hvalid)).
Defined.

Lemma translate_srt_opus_short_answer_witness :
  @translate_srt_opus Demo.lib SrtCodec.compose SrtCodec.parse
    "in.srt" "out.srt" Demo.mute "fr" "en" 32%Z Demo.state
  = (inl IndexError, Demo.state).
Proof.
  apply (@translate_srt_opus_short_answer Demo.lib SrtCodec.compose SrtCodec.parse
           "in.srt" "out.srt" Demo.mute "fr" "en" 32%Z Demo.state
           (SrtCodec.compose Demo.document) Demo.document []).
  - reflexivity.
  - reflexivity.
  - reflexivity.
  - simpl. lia.
Defined.


(** ** The scenarios of the specification *)

(** "en-US" gives "en", "ja" gives "ja", "pt-BR" gives "pt". *)
Example code_normalization :
  source_code "en-US" None = inr "en" /\
  source_code "ja" None = inr "ja" /\
  source_code "auto" (Some "pt-BR") = inr "pt".
Proof. repeat split. Qed.

(** The stub that tags every content leaves the three entries of the
    document in place with their times. *)
Example scenario_a :
  translate_loop (@translate Demo.lib ("fr", "en")) Demo.document
  = [ mkSubtitle 1 0 1200000 "en:Hi";
      mkSubtitle 2 1200000 2000000 "en:Bye";
      mkSubtitle 3 2000000 3500000 "en:End" ]%Z.
Proof. reflexivity. Qed.

(** Asking for ("fr", "xx") with no such package in the catalog fails
    after the catalog query, without download or install. *)
Example scenario_b :
  ops (snd (@ensure_argos_pair Demo.lib "fr" "xx"
              (Demo.world_empty Demo.lib [("en", "id"); ("fr", "en")])))
  = [OpCatalog].
Proof. reflexivity. Qed.

(** One block followed by a blank line parses to one entry. *)
Example scenario_c :
  SrtCodec.parse
    ("1" ++ SrtCodec.nl ++ "00:00:01,000 --> 00:00:02,500" ++ SrtCodec.nl
       ++ "Hello" ++ SrtCodec.nl ++ SrtCodec.nl)%string
  = inr [mkSubtitle 1 1000000 2500000 "Hello"]%Z.
Proof. reflexivity. Qed.

(** Newlines at the end of a content are not read back. *)
Example parse_drops_final_newlines :
  SrtCodec.parse
    (SrtCodec.compose [mkSubtitle 1 0 1000000 ("Hello" ++ SrtCodec.nl)%string]%Z)
  = inr [mkSubtitle 1 0 1000000 "Hello"]%Z.
Proof. reflexivity. Qed.

(** A block without a content line is refused. *)
Example parse_needs_content :
  SrtCodec.parse (SrtCodec.compose [mkSubtitle 1 0 1000000 ""]%Z)
  = inl (FormatError "incomplete block").
Proof. reflexivity. Qed.

(** * Further properties of the scripts *)

(** ** Integers as text *)

Lemma int_unfold s :
  PyInt.int s
  = match PyInt.skip_right (PyInt.skip_left s) with
    | EmptyString => None
    | String c r =>
        if Ascii.eqb c "+" then PyInt.of_digits r
        else if Ascii.eqb c "-" then option_map Z.opp (PyInt.of_digits r)
        else PyInt.of_digits (String c r)
    end.
Proof.
  unfold PyInt.int. destruct (PyInt.skip_right (PyInt.skip_left s)) as [|c r];
    [reflexivity|].
  destruct c as [[] [] [] [] [] [] [] []]; reflexivity.
Qed.

(** What [int] skips is white space for [str.strip] too. *)
Lemma int_space_is_space c : Py.isspace c = false -> PyInt.isspace c = false.
Proof. destruct c as [[] [] [] [] [] [] [] []]; vm_compute; congruence. Qed.

Lemma lstrip_id s :
  (forall c, Py.head s = Some c -> Py.isspace c = false) -> Py.lstrip s = s.
Proof.
  destruct s as [|a s]; [reflexivity|]. intros Hh.
  cbn [Py.lstrip]. by rewrite (Hh a eq_refl).
Qed.

Lemma rstrip_id s :
  (forall c, Py.last s = Some c -> Py.isspace c = false) -> Py.rstrip s = s.
Proof.
  induction s as [|a s IH]; [reflexivity|]. intros Hl. cbn [Py.rstrip].
  destruct s as [|b s].
  - cbn [Py.rstrip]. by rewrite (Hl a eq_refl).
  - rewrite IH by (intros c Hc; by apply Hl). reflexivity.
Qed.

Lemma strip_id s :
  (forall c, Py.head s = Some c -> Py.isspace c = false) ->
  (forall c, Py.last s = Some c -> Py.isspace c = false) ->
  Py.strip s = s.
Proof. intros Hh Hl. unfold Py.strip. by rewrite (lstrip_id s Hh), rstrip_id. Qed.

Lemma skip_id s :
  (forall c, Py.head s = Some c -> Py.isspace c = false) ->
  (forall c, Py.last s = Some c -> Py.isspace c = false) ->
  PyInt.skip_right (PyInt.skip_left s) = s.
Proof.
  intros Hh Hl.
  assert (Hleft : PyInt.skip_left s = s).
  { destruct s as [|a s]; [reflexivity|]. cbn [PyInt.skip_left].
    by rewrite (int_space_is_space a (Hh a eq_refl)). }
  rewrite Hleft. clear Hh Hleft.
  induction s as [|a s IH]; [reflexivity|]. cbn [PyInt.skip_right].
  destruct s as [|b s].
  - cbn [PyInt.skip_right]. by rewrite (int_space_is_space a (Hl a eq_refl)).
  - rewrite IH by (intros c Hc; by apply Hl). reflexivity.
Qed.

Lemma numeral_head d c :
  Py.head (NilEmpty.string_of_uint d) = Some c ->
  Py.isspace c = false /\ Ascii.eqb c "+" = false /\ Ascii.eqb c "-" = false /\
  Ascii.eqb c "_" = false.
Proof. destruct d; simpl; intros [= <-]; repeat split. Qed.

Lemma numeral_last d c :
  Py.last (NilEmpty.string_of_uint d) = Some c -> Py.isspace c = false.
Proof.
  induction d; cbn [NilEmpty.string_of_uint Py.last]; [discriminate|..];
    (destruct (NilEmpty.string_of_uint d) eqn:Hd;
     [intros [= <-]; reflexivity | exact IHd]).
Qed.

Lemma numeral_length d :
  String.length (NilEmpty.string_of_uint d) = Decimal.nb_digits d.
Proof.
  induction d; cbn [NilEmpty.string_of_uint String.length Decimal.nb_digits];
    congruence.
Qed.

Lemma drop_underscores_numeral d :
  PyInt.drop_underscores true (NilEmpty.string_of_uint d)
  = Some (NilEmpty.string_of_uint d).
Proof.
  induction d; cbn [NilEmpty.string_of_uint PyInt.drop_underscores];
    [reflexivity|..]; rewrite IHd; reflexivity.
Qed.

Lemma of_digits_numeral d :
  d <> Decimal.Nil ->
  (Decimal.nb_digits d <= PyInt.max_str_digits)%nat ->
  PyInt.of_digits (NilEmpty.string_of_uint d) = Some (Z.of_uint d).
Proof.
  intros Hd Hlen. unfold PyInt.of_digits.
  assert (Hdrop : PyInt.drop_underscores false (NilEmpty.string_of_uint d)
                  = Some (NilEmpty.string_of_uint d)).
  { destruct d; [done|..];
      cbn [NilEmpty.string_of_uint PyInt.drop_underscores];
      rewrite drop_underscores_numeral; reflexivity. }
  rewrite Hdrop, numeral_length.
  apply Nat.leb_le in Hlen. by rewrite Hlen, NilEmpty.usu.
Qed.

Lemma to_int_digits n :
  match Z.to_int n with
  | Decimal.Pos d => d <> Decimal.Nil
  | Decimal.Neg d => d <> Decimal.Nil
  end.
Proof.
  pose proof (DecimalZ.of_to n) as Hn.
  destruct (Z.to_int n) as [d|d] eqn:Hd; intros ->; simpl in Hn; subst n;
    discriminate Hd.
Qed.

(** The digits of [n] are those of the numeral [Z.to_int] gives. *)
Lemma digits_to_int n :
  PyInt.digits n
  = match Z.to_int n with
    | Decimal.Pos d => Decimal.nb_digits d
    | Decimal.Neg d => Decimal.nb_digits d
    end.
Proof.
  unfold PyInt.digits, PyInt.str.
  destruct n as [|p|p]; cbn [Z.abs Z.to_int NilEmpty.string_of_int];
    apply numeral_length.
Qed.

(** [int] reads back what [str] writes, for a number within the limit. *)
Lemma int_str n :
  (PyInt.digits n <= PyInt.max_str_digits)%nat ->
  PyInt.int (PyInt.str n) = Some n.
Proof.
  rewrite digits_to_int.
  pose proof (DecimalZ.of_to n) as Hn. pose proof (to_int_digits n) as Hd.
  rewrite int_unfold. unfold PyInt.str.
  destruct (Z.to_int n) as [d|d]; cbn [NilEmpty.string_of_int]; intros Hlen.
  - rewrite skip_id;
      [|intros c Hc; by apply (numeral_head d) | apply numeral_last].
    destruct (NilEmpty.string_of_uint d) as [|c r] eqn:Hs.
    { destruct d; done. }
    destruct (numeral_head d c) as (_ & -> & -> & _); [by rewrite Hs|].
    rewrite <- Hs, of_digits_numeral by done. by rewrite <- Hn.
  - rewrite skip_id.
    + cbn [Ascii.eqb Bool.eqb]. rewrite of_digits_numeral by done.
      simpl. by rewrite <- Hn.
    + intros c [= <-]. reflexivity.
    + intros c. cbn [Py.last].
      destruct (NilEmpty.string_of_uint d) eqn:Hs; [by destruct d|].
      rewrite <- Hs. apply numeral_last.
Qed.

Lemma of_digits_Some r m :
  PyInt.of_digits r = Some m ->
  (0 <= m)%Z /\ (PyInt.digits m <= PyInt.max_str_digits)%nat.
Proof.
  unfold PyInt.of_digits.
  destruct (PyInt.drop_underscores false r) as [ds|]; [|discriminate].
  destruct (Nat.leb_spec (String.length ds) PyInt.max_str_digits) as [Hlen|_];
    [|discriminate].
  destruct (NilEmpty.uint_of_string ds) as [u|] eqn:Hu; [|discriminate].
  intros [= <-]. apply NilEmpty.sus in Hu. subst ds.
  rewrite numeral_length in Hlen.
  split; [unfold Z.of_uint; lia|].
  rewrite digits_to_int.
  change (Z.of_uint u) with (Z.of_int (Decimal.Pos u)).
  rewrite DecimalZ.to_of. cbn [Decimal.norm].
  pose proof (DecimalFacts.nb_digits_nzhead u) as Hnz.
  assert (Hone : (1 <= PyInt.max_str_digits)%nat) by (apply Nat.leb_le; reflexivity).
  unfold Decimal.unorm.
  destruct (Decimal.nzhead u); cbn [Decimal.nb_digits] in *; lia.
Qed.

(** A number that [int] returns is within the limit of [str]. *)
Lemma int_digits s n :
  PyInt.int s = Some n -> (PyInt.digits n <= PyInt.max_str_digits)%nat.
Proof.
  rewrite int_unfold.
  destruct (PyInt.skip_right (PyInt.skip_left s)) as [|c r]; [discriminate|].
  assert (Hopp : forall m, PyInt.digits (- m) = PyInt.digits m).
  { intros m. unfold PyInt.digits. by rewrite Z.abs_opp. }
  destruct (Ascii.eqb c "+"); [intros Hr; by apply of_digits_Some in Hr as [_ ?]|].
  destruct (Ascii.eqb c "-").
  - destruct (PyInt.of_digits r) as [m|] eqn:Hr; [|discriminate].
    intros [= <-]. rewrite Hopp. by apply of_digits_Some in Hr as [_ ?].
  - intros Hr. by apply of_digits_Some in Hr as [_ ?].
Qed.

Lemma strip_str n : Py.strip (PyInt.str n) = PyInt.str n.
Proof.
  pose proof (to_int_digits n) as Hd. unfold PyInt.str.
  destruct (Z.to_int n) as [d|d]; cbn [NilEmpty.string_of_int].
  - apply strip_id; [intros c Hc; by apply (numeral_head d) | apply numeral_last].
  - apply strip_id.
    + intros c [= <-]. reflexivity.
    + intros c. cbn [Py.last].
      destruct (NilEmpty.string_of_uint d) eqn:Hs; [by destruct d|].
      rewrite <- Hs. apply numeral_last.
Qed.

Lemma str_nonempty n : PyInt.str n <> EmptyString.
Proof.
  pose proof (to_int_digits n) as Hd. unfold PyInt.str.
  destruct (Z.to_int n) as [d|d]; cbn [NilEmpty.string_of_int]; [|discriminate].
  destruct d; [done|..]; discriminate.
Qed.

(** A positive number of more digits than the limit is not read back. *)
Lemma int_str_long n :
  (0 < n)%Z -> (PyInt.max_str_digits < PyInt.digits n)%nat ->
  PyInt.int (PyInt.str n) = None.
Proof.
  intros Hn. rewrite digits_to_int.
  pose proof (to_int_digits n) as Hd.
  rewrite int_unfold. unfold PyInt.str.
  destruct n as [|p|p]; [lia| |lia]. cbn [Z.to_int NilEmpty.string_of_int] in *.
  set (d := Pos.to_uint p) in *. intros Hlen.
  rewrite skip_id;
    [|intros c Hc; by apply (numeral_head d) | apply numeral_last].
  destruct (NilEmpty.string_of_uint d) as [|c r] eqn:Hs.
  { destruct d; done. }
  destruct (numeral_head d c) as (_ & -> & -> & _); [by rewrite Hs|].
  rewrite <- Hs. unfold PyInt.of_digits.
  assert (Hdrop : PyInt.drop_underscores false (NilEmpty.string_of_uint d)
                  = Some (NilEmpty.string_of_uint d)).
  { destruct d; [done|..];
      cbn [NilEmpty.string_of_uint PyInt.drop_underscores];
      rewrite drop_underscores_numeral; reflexivity. }
  rewrite Hdrop, numeral_length.
  destruct (Nat.leb_spec (Decimal.nb_digits d) PyInt.max_str_digits); [lia|done].
Qed.

(** [int] takes white space, a sign and single underscores; it refuses
    the separator FS, which [str.strip] removes, and a numeral of more
    than 4300 digits, leading zeros counted. *)
Example int_accepts :
  PyInt.int " 250 " = Some 250%Z /\ PyInt.int "-007" = Some (-7)%Z /\
  PyInt.int "1_000" = Some 1000%Z /\
  PyInt.int (String (ascii_of_nat 160) "3") = Some 3%Z /\
  PyInt.int (SrtCodec.zeros 4299 ++ "7")%string = Some 7%Z.
Proof. repeat split; vm_compute; reflexivity. Qed.

Example int_refuses :
  PyInt.int Sample.fs_three = None /\ Py.strip Sample.fs_three = "3" /\
  PyInt.int "+ 3" = None /\ PyInt.int "1__0" = None /\ PyInt.int "" = None /\
  PyInt.int (SrtCodec.zeros 4300 ++ "7")%string = None.
Proof. repeat split; vm_compute; reflexivity. Qed.

(** ** main.py *)

Section LauncherFacts.
Context {float : Type}.
Variable float_of_string : string -> option float.
Variable in_range : float -> bool.
Variable default_threshold : float.
Variable str_float : float -> string.
Variable os_sep : string.
Variable popen : list string -> Launcher.Child.

Local Abbreviation read_threshold :=
  (Launcher.read_threshold float float_of_string in_range default_threshold).
Local Abbreviation command := (Launcher.command float str_float os_sep).
Local Abbreviation gather :=
  (Launcher.gather float float_of_string in_range default_threshold
     str_float os_sep).
Local Abbreviation main :=
  (Launcher.main float float_of_string in_range default_threshold
     str_float os_sep popen).

Lemma read_required_Got lines x rest :
  Launcher.read_required lines = Launcher.Got x rest ->
  exists l, lines = l :: rest /\ x = Py.strip l /\ x <> EmptyString.
Proof.
  destruct lines as [|l more]; [discriminate|]. cbn [Launcher.read_required].
  destruct (String.eqb_spec (Py.strip l) "") as [|Hne]; [discriminate|].
  intros [= <- <-]. eauto.
Qed.

Lemma read_duration_Got lines n rest :
  Launcher.read_duration lines = Launcher.Got n rest ->
  (0 < n)%Z /\ (PyInt.digits n <= PyInt.max_str_digits)%nat /\
  rest `suffix_of` lines.
Proof.
  induction lines as [|l more IH]; [discriminate|].
  cbn [Launcher.read_duration].
  assert (Hmore : Launcher.read_duration more = Launcher.Got n rest ->
                  (0 < n)%Z /\ (PyInt.digits n <= PyInt.max_str_digits)%nat /\
                  rest `suffix_of` l :: more).
  { intros Hr. destruct (IH Hr) as (Hn & Hd & Hs). split; [done|].
    split; [done|]. by apply suffix_cons_r. }
  destruct (String.eqb (Py.strip l) "").
  { intros [= <- <-]. split; [lia|].
    split; [apply Nat.leb_le; reflexivity|]. apply suffix_cons_r. done. }
  destruct (PyInt.int (Py.strip l)) as [m|] eqn:Hint; [|exact Hmore].
  destruct (Z.ltb_spec 0 m); [|exact Hmore].
  intros [= <- <-]. split; [done|].
  split; [exact (int_digits _ _ Hint)|]. by apply suffix_cons_r.
Qed.

Lemma read_threshold_Got lines t rest :
  read_threshold lines = Launcher.Got t rest ->
  (t = default_threshold \/
   in_range t = true /\ exists s, float_of_string s = Some t) /\
  rest `suffix_of` lines.
Proof.
  induction lines as [|l more IH]; [discriminate|].
  cbn [Launcher.read_threshold].
  assert (Hmore : read_threshold more = Launcher.Got t rest ->
            (t = default_threshold \/
             in_range t = true /\ exists s, float_of_string s = Some t) /\
            rest `suffix_of` l :: more).
  { intros Hr. destruct (IH Hr) as [Ht Hs]. split; [done|].
    by apply suffix_cons_r. }
  destruct (String.eqb (Py.strip l) "").
  { intros [= <- <-]. split; [by left|]. by apply suffix_cons_r. }
  destruct (float_of_string (Py.strip l)) as [t'|] eqn:Hf; [|exact Hmore].
  destruct (in_range t') eqn:Hr; [|exact Hmore].
  intros [= <- <-]. split; [right; eauto|]. by apply suffix_cons_r.
Qed.

Lemma read_library_Got lines library rest :
  Launcher.read_library lines = Launcher.Got library rest ->
  (library = "argos" \/ library = "opus") /\ rest `suffix_of` lines.
Proof.
  induction lines as [|l more IH]; [discriminate|].
  cbn [Launcher.read_library]. unfold Launcher.known_library.
  destruct (String.eqb_spec (Py.strip (Py.lower l)) "argos") as [Ha|_]; simpl.
  { intros [= <- <-]. split; [by left|]. by apply suffix_cons_r. }
  destruct (String.eqb_spec (Py.strip (Py.lower l)) "opus") as [Ho|_].
  { intros [= <- <-]. split; [by right|]. by apply suffix_cons_r. }
  intros Hr. destruct (IH Hr) as [Hl Hs]. split; [done|].
  by apply suffix_cons_r.
Qed.

(** X5: whenever the launcher gets as far as a command, the command is
    [uv run src/tl_argos.py] or [uv run src/tl_opus.py] with the first
    three input lines, stripped and not empty, as video path, language
    and target; the value after [--vad-ms] is a positive integer that
    [int] reads back unchanged; and the threshold is the default or a
    parsed value inside the range. *)
Theorem gather_command_valid lines cmd rest :
  gather lines = Launcher.Got cmd rest ->
  exists l1 l2 l3 more min_silence_duration threshold library,
    lines = l1 :: l2 :: l3 :: more /\
    Py.strip l1 <> EmptyString /\ Py.strip l2 <> EmptyString /\
    Py.strip l3 <> EmptyString /\
    cmd = [ "uv"; "run"; ("src" ++ os_sep ++ "tl_" ++ library ++ ".py")%string;
            Py.strip l1; "--language"; Py.strip l2; "--to"; Py.strip l3;
            "--vad-ms"; PyInt.str min_silence_duration;
            "--vad-threshold"; str_float threshold ] /\
    (library = "argos" \/ library = "opus") /\
    (0 < min_silence_duration)%Z /\
    PyInt.int (PyInt.str min_silence_duration) = Some min_silence_duration /\
    (threshold = default_threshold \/
     in_range threshold = true /\ exists s, float_of_string s = Some threshold) /\
    rest `suffix_of` more.
Proof.
  unfold Launcher.gather, Launcher.and_then.
  destruct (Launcher.read_required lines) as [video r1| |] eqn:H1; [|discriminate..].
  destruct (Launcher.read_required r1) as [language r2| |] eqn:H2; [|discriminate..].
  destruct (Launcher.read_required r2) as [to r3| |] eqn:H3; [|discriminate..].
  destruct (Launcher.read_duration r3) as [ms r4| |] eqn:H4; [|discriminate..].
  destruct (read_threshold r4) as [t r5| |] eqn:H5; [|discriminate..].
  destruct (Launcher.read_library r5) as [lib r6| |] eqn:H6; [|discriminate..].
  intros [= <- <-].
  apply read_required_Got in H1 as (l1 & -> & -> & N1).
  apply read_required_Got in H2 as (l2 & -> & -> & N2).
  apply read_required_Got in H3 as (l3 & -> & -> & N3).
  apply read_duration_Got in H4 as (Hms & Hdigits & S4).
  apply read_threshold_Got in H5 as [Ht S5].
  apply read_library_Got in H6 as [Hlib S6].
  exists l1, l2, l3, r3, ms, t, lib.
  split; [done|]. do 3 (split; [done|]). split; [reflexivity|].
  split; [done|]. split; [done|]. split; [by apply int_str|]. split; [done|].
  by repeat (etrans; [eassumption|]).
Qed.

(** X6: the duration loop ignores every line it turns down and decides
    on the first line that is blank (500) or the text of a positive
    integer of at most 4300 digits (that integer).  The text of a longer
    integer is turned down, since [int] refuses it. *)
Theorem read_duration_skips refused l rest :
  Forall Launcher.duration_refused refused ->
  Launcher.read_duration (refused ++ l :: rest)
  = Launcher.read_duration (l :: rest) /\
  (Py.strip l = EmptyString ->
   Launcher.read_duration (refused ++ l :: rest) = Launcher.Got 500%Z rest) /\
  (forall n, (0 < n)%Z -> (PyInt.digits n <= 4300)%nat -> l = PyInt.str n ->
   Launcher.read_duration (refused ++ l :: rest) = Launcher.Got n rest) /\
  (forall n, (0 < n)%Z -> (4300 < PyInt.digits n)%nat -> l = PyInt.str n ->
   Launcher.read_duration (refused ++ l :: rest) = Launcher.read_duration rest).
Proof.
  intros Href.
  assert (Hskip : Launcher.read_duration (refused ++ l :: rest)
                  = Launcher.read_duration (l :: rest)).
  { induction Href as [|b bs [Hne Hb] _ IH]; [reflexivity|].
    cbn [app Launcher.read_duration].
    apply String.eqb_neq in Hne. rewrite Hne.
    destruct (PyInt.int (Py.strip b)) as [m|]; [|exact IH].
    destruct (Z.ltb_spec 0 m) as [Hm|_]; [|exact IH].
    specialize (Hb m eq_refl). lia. }
  split; [exact Hskip|]. rewrite Hskip. cbn [Launcher.read_duration].
  split; [|split].
  - intros ->. reflexivity.
  - intros n Hn Hlen ->. rewrite strip_str, int_str by exact Hlen.
    pose proof (str_nonempty n) as Hne. apply String.eqb_neq in Hne.
    rewrite Hne. destruct (Z.ltb_spec 0 n); [reflexivity | lia].
  - intros n Hn Hlen ->. rewrite strip_str, int_str_long by done.
    pose proof (str_nonempty n) as Hne. apply String.eqb_neq in Hne.
    by rewrite Hne.
Qed.

(** X7: a blank video path, language or target ends the launcher with
    exit code 1 before anything else is read or run; and the launcher
    returns normally only when a command was gathered and the child
    returned 0, while any other code of the child becomes its own exit
    code. *)
Theorem main_status lines :
  (forall filled l rest,
     lines = filled ++ l :: rest -> (length filled < 3)%nat ->
     Forall (fun x => Py.strip x <> EmptyString) filled ->
     Py.strip l = EmptyString ->
     main lines = Launcher.SysExit 1) /\
  (main lines = Launcher.Returns ->
     exists cmd rest, gather lines = Launcher.Got cmd rest /\
                      popen cmd = Launcher.Returned 0) /\
  (forall cmd rest code, gather lines = Launcher.Got cmd rest ->
     popen cmd = Launcher.Returned code -> code <> 0%Z ->
     main lines = Launcher.SysExit code).
Proof.
  split; [|split].
  - intros filled l rest -> Hlen Hfilled Hl.
    unfold Launcher.main, Launcher.gather.
    destruct filled as [|l1 [|l2 [|l3 more]]]; [| | |simpl in Hlen; lia];
      repeat match goal with
        | H : Forall _ (_ :: _) |- _ =>
            apply Forall_cons in H as [?%String.eqb_neq H]
        end;
      cbn [app Launcher.read_required Launcher.and_then];
      repeat match goal with
        | H : String.eqb _ _ = false |- _ =>
            rewrite H; clear H; cbn [Launcher.and_then Launcher.read_required]
        end;
      by rewrite Hl.
  - unfold Launcher.main, Launcher.launch.
    destruct (gather lines) as [cmd rest| |]; [|discriminate..].
    destruct (popen cmd) as [| |code] eqn:Hp; [discriminate..|].
    destruct (Z.eqb_spec code 0) as [->|]; [|discriminate]. eauto.
  - intros cmd rest code Hg Hp Hcode. unfold Launcher.main, Launcher.launch.
    rewrite Hg, Hp. by destruct (Z.eqb_spec code 0).
Qed.

End LauncherFacts.

(** ** cleanup.py *)

Section CleanupFacts.
Context {FS : Type}.
Variable exists_ : Cleanup.Dir -> FS -> bool.
Variable rmtree : Cleanup.Dir -> FS -> option string * FS.

Local Abbreviation remove_dir := (Cleanup.remove_dir FS exists_ rmtree).
Local Abbreviation remove_all := (Cleanup.remove_all FS exists_ rmtree).
Local Abbreviation cleanup := (Cleanup.main FS exists_ rmtree).

Lemma remove_all_app ds ds' st :
  remove_all (ds ++ ds') st = remove_all ds' (remove_all ds st).
Proof. unfold Cleanup.remove_all. apply foldl_app. Qed.

Lemma cleanup_chosen home line fs :
  fst (cleanup home line fs) = fst (remove_all (Cleanup.chosen home line) (fs, [])) /\
  (forall c, PyInt.int line = Some c -> (1 <= c <= 3)%Z ->
     cleanup home line fs = remove_all (Cleanup.chosen home line) (fs, [])).
Proof.
  unfold Cleanup.main, Cleanup.chosen, Cleanup.selected.
  destruct (PyInt.int line) as [c|]; [|split; [reflexivity|discriminate]].
  destruct (Z.eqb_spec c 1); [split; [reflexivity|intros ? _ _; reflexivity]|].
  destruct (Z.eqb_spec c 2); [split; [reflexivity|intros ? _ _; reflexivity]|].
  destruct (Z.eqb_spec c 3).
  { cbn [Cleanup.values concat foldl]. rewrite app_nil_r, remove_all_app.
    split; [reflexivity|intros ? _ _; reflexivity]. }
  destruct (Z.eqb_spec c 4); (split; [reflexivity|intros ? [= <-] ?; lia]).
Qed.

Lemma remove_dir_reports d fs out :
  exists m, snd (remove_dir d (fs, out)) = out ++ [m] /\ Cleanup.reports d m.
Proof.
  unfold Cleanup.remove_dir, Cleanup.reports.
  destruct (exists_ d fs); [|eauto 6].
  destruct (rmtree d fs) as [[e|] fs']; simpl; eauto 8.
Qed.

Lemma remove_all_reports ds fs out :
  exists ms, snd (remove_all ds (fs, out)) = out ++ ms /\
             Forall2 Cleanup.reports ds ms.
Proof.
  revert fs out. induction ds as [|d ds IH]; intros fs out.
  - exists []. simpl. by rewrite app_nil_r.
  - unfold Cleanup.remove_all. cbn [foldl].
    destruct (remove_dir_reports d fs out) as (m & Hm & Hrep).
    destruct (remove_dir d (fs, out)) as [fs1 out1]. simpl in Hm. subst out1.
    destruct (IH fs1 (out ++ [m])) as (ms & Hms & Hall).
    exists (m :: ms). unfold Cleanup.remove_all in Hms.
    rewrite Hms, <- app_assoc. split; [reflexivity | by constructor].
Qed.

Lemma remove_dir_frame d fs out q :
  (forall p fs0, ~ p `prefix_of` q ->
     exists_ q (snd (rmtree p fs0)) = exists_ q fs0) ->
  ~ d `prefix_of` q ->
  exists_ q (fst (remove_dir d (fs, out))) = exists_ q fs.
Proof.
  intros Hframe Hd. unfold Cleanup.remove_dir.
  destruct (exists_ d fs); [|reflexivity].
  specialize (Hframe d fs Hd). by destruct (rmtree d fs) as [[e|] fs'].
Qed.

Lemma remove_all_frame ds fs out q :
  (forall p fs0, ~ p `prefix_of` q ->
     exists_ q (snd (rmtree p fs0)) = exists_ q fs0) ->
  Forall (fun d => ~ d `prefix_of` q) ds ->
  exists_ q (fst (remove_all ds (fs, out))) = exists_ q fs.
Proof.
  intros Hframe Hds. revert fs out.
  induction Hds as [|d ds Hd _ IH]; intros fs out; [reflexivity|].
  unfold Cleanup.remove_all. cbn [foldl].
  pose proof (remove_dir_frame d fs out q Hframe Hd) as Hstep.
  destruct (remove_dir d (fs, out)) as [fs1 out1].
  unfold Cleanup.remove_all in IH. by rewrite IH.
Qed.

(** X8: unless the line typed is the number 1, 2 or 3, cleanup removes
    nothing: for 4, for any other number and for text that is no number
    the file system is as before and one message is printed. *)
Theorem cleanup_nothing_chosen home line fs :
  (forall c, PyInt.int line = Some c -> c <> 1 /\ c <> 2 /\ c <> 3)%Z ->
  Cleanup.chosen home line = [] /\
  exists m, cleanup home line fs = (fs, [m]) /\
            (m = Cleanup.Cancelled \/ m = Cleanup.InvalidChoice \/
             m = Cleanup.InvalidInput).
Proof.
  intros Hc. unfold Cleanup.chosen, Cleanup.main, Cleanup.selected.
  destruct (PyInt.int line) as [c|]; [|eauto 6].
  destruct (Hc c eq_refl) as (H1 & H2 & H3).
  apply Z.eqb_neq in H1, H2, H3. rewrite H1, H2, H3.
  split; [reflexivity|]. destruct (c =? 4)%Z; eauto 6.
Qed.


(** X10: cleanup leaves alone whatever lies outside the directories of
    the choice, granted that [rmtree] only touches what lies under the
    directory it is given; so cleaning the Whisper cache keeps both Argos
    directories, and cleaning the Argos directories keeps the Whisper
    cache. *)
Theorem cleanup_frame home line fs :
  (forall q p fs0, ~ p `prefix_of` q ->
     exists_ q (snd (rmtree p fs0)) = exists_ q fs0) ->
  let fs' := fst (cleanup home line fs) in
  (forall q, Forall (fun d => ~ d `prefix_of` q) (Cleanup.chosen home line) ->
     exists_ q fs' = exists_ q fs) /\
  (PyInt.int line = Some 1%Z ->
     Forall (fun d => exists_ d fs' = exists_ d fs)
       (Cleanup.argos (Cleanup.get_cache_dirs home))) /\
  (PyInt.int line = Some 2%Z ->
     Forall (fun d => exists_ d fs' = exists_ d fs)
       (Cleanup.whisper (Cleanup.get_cache_dirs home))).
Proof.
  intros Hframe fs'.
  assert (Hout : forall q,
            Forall (fun d => ~ d `prefix_of` q) (Cleanup.chosen home line) ->
            exists_ q fs' = exists_ q fs).
  { intros q Hq. subst fs'. rewrite (proj1 (cleanup_chosen home line fs)).
    apply remove_all_frame; [apply Hframe | exact Hq]. }
  split; [exact Hout|].
  assert (Hapart : forall (a b : list string),
            a <> b -> length a = length b ->
            ~ (home ++ a) `prefix_of` (home ++ b)).
  { intros a b Hab Hlen Hpre. apply prefix_app_inv in Hpre.
    destruct Hpre as [k Hk]. apply Hab.
    assert (k = []) as ->.
    { apply (f_equal length) in Hk. rewrite length_app in Hk.
      destruct k; [done | simpl in Hk; lia]. }
    by rewrite app_nil_r in Hk. }
  split.
  - intros Hint. unfold Cleanup.get_cache_dirs. cbn [Cleanup.argos].
    repeat constructor; apply Hout; unfold Cleanup.chosen; rewrite Hint;
      repeat constructor; by apply Hapart.
  - intros Hint. unfold Cleanup.get_cache_dirs. cbn [Cleanup.whisper].
    repeat constructor; apply Hout; unfold Cleanup.chosen; rewrite Hint;
      repeat constructor; by apply Hapart.
Qed.

End CleanupFacts.

(** ** The registry and the pipeline of the two scripts *)

Section RegistryFacts.
Context `{Argos}.

Local Abbreviation add_lang :=
  (fun (m : gmap string Language) lang => <[lang_code lang := lang]> m).

Lemma langs_fold_Some (langs : list Language) (m : gmap string Language) c lang :
  foldl add_lang m langs !! c = Some lang ->
  (lang ∈ langs /\ lang_code lang = c) \/ m !! c = Some lang.
Proof.
  revert m. induction langs as [|l rest IH]; intros m; simpl; [auto|].
  intros Hl. destruct (IH _ Hl) as [[Hin Hc]|Hm].
  - left. split; [by right | done].
  - destruct (decide (lang_code l = c)) as [Heq|Hne].
    + rewrite <- Heq, lookup_insert_eq in Hm. injection Hm as <-.
      left. split; [by left | done].
    + rewrite lookup_insert_ne in Hm by done. by right.
Qed.

Lemma langs_of_Some langs c lang :
  langs_of langs !! c = Some lang -> lang ∈ langs /\ lang_code lang = c.
Proof.
  intros Hl. destruct (langs_fold_Some langs ∅ c lang Hl) as [?|Hm]; [done|].
  by rewrite lookup_empty in Hm.
Qed.

(** X11: [load_translator] answers only from installed languages: a
    translator it returns is [get_translation] of an installed language
    with the source code and an installed language with the target code;
    when no installed language has the source code, or none has the
    target code, it returns nothing. *)
Theorem load_translator_installed src_lang tgt_lang (w : World) :
  (forall tr, load_translator src_lang tgt_lang w = Some tr ->
     exists ls lt, ls ∈ installed w /\ lt ∈ installed w /\
                   lang_code ls = src_lang /\ lang_code lt = tgt_lang /\
                   get_translation ls lt = Some tr) /\
  (Forall (fun lang => lang_code lang <> src_lang) (installed w) ->
     load_translator src_lang tgt_lang w = None) /\
  (Forall (fun lang => lang_code lang <> tgt_lang) (installed w) ->
     load_translator src_lang tgt_lang w = None).
Proof.
  unfold load_translator. cbv zeta.
  destruct (langs_of (installed w) !! src_lang) as [ls|] eqn:Hs;
    destruct (langs_of (installed w) !! tgt_lang) as [lt|] eqn:Ht;
    try apply langs_of_Some in Hs as [Hs1 Hs2];
    try apply langs_of_Some in Ht as [Ht1 Ht2];
    (split; [intros tr Htr; try discriminate; eauto 8|]);
    (split; intros Hall; try reflexivity; rewrite Forall_forall in Hall;
     exfalso; naive_solver).
Qed.

(** X12: [ensure_argos_pair] never changes the catalog; a handle it
    returns is the one [load_translator] finds in the registry it
    leaves; and it raises only when the pair was not installed, either
    the auto-install error or "still unavailable", the latter with the
    pair absent from the registry it leaves. *)
Theorem ensure_argos_pair_outcome src_lang tgt_lang (w : World) :
  let r := ensure_argos_pair src_lang tgt_lang w in
  available (snd r) = available w /\
  match fst r with
  | inr tr => load_translator src_lang tgt_lang (snd r) = Some tr
  | inl e =>
      load_translator src_lang tgt_lang w = None /\
      ((exists cause, e = AutoInstallFailed src_lang tgt_lang cause) \/
       (e = StillUnavailable src_lang tgt_lang /\
        load_translator src_lang tgt_lang (snd r) = None))
  end.
Proof.
  cbv zeta. unfold ensure_argos_pair, try_install.
  destruct (load_translator src_lang tgt_lang w) as [tr|] eqn:Hl; [done|].
  simpl. destruct (available w) as [e|pkgs] eqn:Hav; [simpl; eauto|].
  destruct (available_of pkgs !! pair_key src_lang tgt_lang) as [pkg|];
    [|simpl; eauto].
  destruct (download pkg) as [e|model_path]; [simpl; eauto|]. simpl.
  destruct (install_from_path model_path (installed w)) as [e|reg];
    [simpl; eauto|].
  match goal with
  | |- context [load_translator src_lang tgt_lang ?w'] =>
      destruct (load_translator src_lang tgt_lang w') eqn:Hl'
  end; simpl; auto.
Qed.

End RegistryFacts.

Section PipelineFacts.
Context `{Argos}.
Context {seconds : Type} (timedelta_seconds : seconds -> timedelta).
Variable srt_compose : list Subtitle -> string.
Variable srt_parse : string -> Exception + list Subtitle.

Local Abbreviation main_argos' :=
  (main_argos seconds timedelta_seconds srt_compose srt_parse).
Local Abbreviation main_opus' :=
  (main_opus seconds timedelta_seconds srt_compose srt_parse).
Local Abbreviation original segments :=
  (srt_compose (write_srt_subs timedelta_seconds segments)).




End PipelineFacts.

(** ** Runs of the launcher, the cleaner and the pipeline *)

Lemma list_rmtree_frame (q p : Cleanup.Dir) (fs0 : Cleanup.ListFS) :
  ~ p `prefix_of` q ->
  Cleanup.list_exists q (snd (Cleanup.list_rmtree p fs0))
  = Cleanup.list_exists q fs0.
Proof.
  intros Hp. unfold Cleanup.list_exists, Cleanup.list_rmtree. simpl.
  apply bool_decide_ext. rewrite list_elem_of_filter. tauto.
Qed.

Lemma gather_command_valid_witness :
  Sample.gather Sample.lines
  = Launcher.Got
      [ "uv"; "run"; "src/tl_argos.py"; "talk.mp4"; "--language"; "fr";
        "--to"; "en"; "--vad-ms"; "250"; "--vad-threshold"; "5" ] [] /\
  exists library, library = "argos" \/ library = "opus".
Proof.
  assert (Hrun : Sample.gather Sample.lines
                 = Launcher.Got
                     [ "uv"; "run"; "src/tl_argos.py"; "talk.mp4";
                       "--language"; "fr"; "--to"; "en"; "--vad-ms"; "250";
                       "--vad-threshold"; "5" ] []) by reflexivity.
  split; [exact Hrun|].
  destruct (gather_command_valid PyInt.int Sample.in_range 5%Z PyInt.str "/"
              Sample.lines _ _ Hrun)
    as (_ & _ & _ & _ & _ & _ & library & _ & _ & _ & _ & _ & Hlib & _).
  exists library. exact Hlib.
Defined.

Lemma read_duration_skips_witness :
  Launcher.read_duration (["soon"; "-3"; "0"] ++ "250" :: ["99"])
  = Launcher.Got 250%Z ["99"].
Proof.
  assert (Href : Forall Launcher.duration_refused ["soon"; "-3"; "0"]).
  { repeat constructor; try discriminate;
      intros n Hn; vm_compute in Hn; try discriminate; injection Hn as <-; lia. }
  assert (Hlen : (PyInt.digits 250 <= 4300)%nat) by (apply Nat.leb_le; reflexivity).
  exact (proj1 (proj2 (proj2 (read_duration_skips ["soon"; "-3"; "0"] "250" ["99"]
                               Href)))
           250%Z eq_refl Hlen eq_refl).
Defined.

Lemma cleanup_nothing_chosen_witness :
  Sample.cleanup "4" Sample.disk = (Sample.disk, [Cleanup.Cancelled]) /\
  Sample.cleanup "seven" Sample.disk = (Sample.disk, [Cleanup.InvalidInput]) /\
  Sample.cleanup Sample.fs_three Sample.disk
  = (Sample.disk, [Cleanup.InvalidInput]).
Proof.
  assert (H4 : forall c, PyInt.int "4" = Some c -> (c <> 1 /\ c <> 2 /\ c <> 3)%Z).
  { intros c Hc. vm_compute in Hc. injection Hc as <-. lia. }
  assert (Hs : forall c, PyInt.int "seven" = Some c -> (c <> 1 /\ c <> 2 /\ c <> 3)%Z).
  { intros c Hc. vm_compute in Hc. discriminate Hc. }
  assert (Hf : forall c, PyInt.int Sample.fs_three = Some c ->
                         (c <> 1 /\ c <> 2 /\ c <> 3)%Z).
  { intros c Hc. vm_compute in Hc. discriminate Hc. }
  destruct (cleanup_nothing_chosen Cleanup.list_exists Cleanup.list_rmtree
              Sample.home "4" Sample.disk H4) as (_ & m4 & Hm4 & _).
  destruct (cleanup_nothing_chosen Cleanup.list_exists Cleanup.list_rmtree
              Sample.home "seven" Sample.disk Hs) as (_ & ms & Hms & _).
  destruct (cleanup_nothing_chosen Cleanup.list_exists Cleanup.list_rmtree
              Sample.home Sample.fs_three Sample.disk Hf) as (_ & mf & Hmf & _).
  split; [reflexivity|]. split; reflexivity.
Defined.


Lemma cleanup_frame_witness :
  Cleanup.list_exists ["home"; "u"; "videos"] (fst (Sample.cleanup "3" Sample.disk))
  = Cleanup.list_exists ["home"; "u"; "videos"] Sample.disk.
Proof.
  apply (proj1 (cleanup_frame Cleanup.list_exists Cleanup.list_rmtree
                  Sample.home "3" Sample.disk list_rmtree_frame)).
  repeat constructor; intros [k Hk]; discriminate Hk.
Defined.



